(** * Job scheduling and execution pipeline of ansible-webui

    A shallow embedding of [aw/execute/util.py] (run preparation, run
    options, result parsing) and [aw/execute/threader.py] (job workers and
    the thread manager), with the properties of the specification stated
    over it.

    Conventions of the embedding:
    - Python exceptions are values of [exn]; a function that may raise
      returns [result A].
    - [log(...)] calls have no effect on any value the program reads and
      are left out.
    - Python [dict]s with string keys are [gmap string _]; [{**a, **b}] is
      the union in which [b] wins, i.e. [b ∪ a] for stdpp's left-biased
      union.
    - Objects that are mutated and shared (workers held by the manager's
      set and by their own thread) live in a store indexed by object
      identity. *)

From Stdlib Require Import ZArith Ascii String List Bool Lia.
From stdpp Require Import base option list gmap strings pretty fin_maps.

Local Open Scope string_scope.
Local Open Scope Z_scope.

(** ** Exceptions and results *)

Inductive exn : Type :=
| AnsibleConfigError (msg : string)
| ValueError
| TypeError
| KeyError
| OSError
| RuntimeError
| RecursionError
| OtherException (name : string).

Inductive result (A : Type) : Type :=
| Ok (a : A)
| Err (e : exn).
Arguments Ok {A} a.
Arguments Err {A} e.

#[global] Instance result_bind : MBind result :=
  fun A B (k : A -> result B) (r : result A) =>
    match r with
    | Ok a => k a
    | Err e => Err e
    end.

#[global] Instance result_ret : MRet result := fun A a => Ok a.

Definition is_config_error (e : exn) : bool :=
  match e with
  | AnsibleConfigError _ => true
  | _ => false
  end.

(** ** Python string primitives used by the sources *)

Module PyStr.

(** [s.split(sep)] for a one-character separator: every occurrence of
    [sep] cuts, empty pieces are kept, and [''.split(sep) = ['']]. *)
Fixpoint split (sep : ascii) (s : string) : list string :=
  match s with
  | EmptyString => [EmptyString]
  | String c rest =>
      if Ascii.eqb c sep then EmptyString :: split sep rest
      else match split sep rest with
           | [] => [String c EmptyString]
           | piece :: pieces => String c piece :: pieces
           end
  end.

(** Number of occurrences of a character. *)
Fixpoint count (c : ascii) (s : string) : nat :=
  match s with
  | EmptyString => O
  | String a rest => (if Ascii.eqb a c then 1 else 0)%nat + count c rest
  end.

(** [s.endswith(c)] for a one-character suffix. *)
Fixpoint endswith (s : string) (c : ascii) : bool :=
  match s with
  | EmptyString => false
  | String a EmptyString => Ascii.eqb a c
  | String _ rest => endswith rest c
  end.

(** [a / b] on two [str] values: [str] defines no [__truediv__]. *)
Definition truediv (a b : string) : result string := Err TypeError.

End PyStr.

Definition comma : ascii := ","%char.
Definition equals : ascii := "="%char.
Definition slash : ascii := "/"%char.

(** ** [_decode_env_vars] *)

Definition env_vars_error_msg (src : string) : string :=
  "Environmental variables of " +:+ src +:+ " are not in a valid format "
  +:+ "(comma-separated key-value pairs). Example: 'key1=val1,key2=val2'".

(** One iteration of the loop body: [k, v = kv.split('='); env_vars[k] = v].
    Unpacking anything but two pieces raises [ValueError]. *)
Definition decode_kv (env_vars : gmap string string) (kv : string)
  : result (gmap string string) :=
  match PyStr.split equals kv with
  | [k; v] => Ok (<[k := v]> env_vars)
  | _ => Err ValueError
  end.

Fixpoint decode_loop (kvs : list string) (env_vars : gmap string string)
  : result (gmap string string) :=
  match kvs with
  | [] => Ok env_vars
  | kv :: kvs' => env_vars' ← decode_kv env_vars kv; decode_loop kvs' env_vars'
  end.

Definition _decode_env_vars (env_vars_csv src : string)
  : result (gmap string string) :=
  match decode_loop (PyStr.split comma env_vars_csv) ∅ with
  | Ok env_vars => Ok env_vars
  | Err ValueError => Err (AnsibleConfigError (env_vars_error_msg src))
  | Err e => Err e
  end.

(** A token is a [key=value] pair when it has exactly one ['=']; a CSV
    string is well formed when every comma-separated token is. *)
Definition token_ok (kv : string) : bool :=
  Nat.eqb (PyStr.count equals kv) 1.

Definition well_formed_csv (csv : string) : bool :=
  forallb token_ok (PyStr.split comma csv).

(** ** Data model

    The Django models of [aw.model.job] are used by the sources through the
    attributes below. *)

Record Job := {
  job_id : Z;
  job_name : string;
  job_schedule : string;
  job_playbook : string;
  job_inventory : string;
  job_limit : option string;
  job_environment_vars : option string;
}.

Record JobExecution := {
  exec_user : option Z;
  exec_job : Job;
  exec_comment : option string;
  exec_limit : option string;
  exec_environment_vars : option string;
  exec_status : option Z;
  exec_result : option nat;
}.

Record JobExecutionResult := {
  time_start : Z;
  failed : bool;
}.

Record JobExecutionResultHost := {
  unreachable : bool;
  tasks_skipped : Z;
  tasks_ok : Z;
  tasks_failed : Z;
  tasks_ignored : Z;
  tasks_rescued : Z;
  tasks_changed : Z;
  host_result : nat;
}.

(** [JobExecution(user=None, job=job, comment='Scheduled')]: every field
    that is not passed keeps the model's null default. *)
Definition scheduled_execution (job : Job) : JobExecution :=
  {| exec_user := None; exec_job := job; exec_comment := Some "Scheduled";
     exec_limit := None; exec_environment_vars := None;
     exec_status := None; exec_result := None |}.

Definition set_status (execution : JobExecution) (key : Z) : JobExecution :=
  {| exec_user := exec_user execution; exec_job := exec_job execution;
     exec_comment := exec_comment execution; exec_limit := exec_limit execution;
     exec_environment_vars := exec_environment_vars execution;
     exec_status := Some key; exec_result := exec_result execution |}.

Definition set_result (execution : JobExecution) (ref : nat) : JobExecution :=
  {| exec_user := exec_user execution; exec_job := exec_job execution;
     exec_comment := exec_comment execution; exec_limit := exec_limit execution;
     exec_environment_vars := exec_environment_vars execution;
     exec_status := exec_status execution; exec_result := Some ref |}.

(** ** The world outside [aw/execute/util.py]

    Configuration, clock, random source, environment toggles, the file
    system as it is when preparation starts, and the status table
    [CHOICES_JOB_EXEC_STATUS] read through [get_choice_key_by_value].

    [is_file], [path_exists] and [is_dir] are the answers of the [Path]
    tests; [stat_fails] tells for which paths the test itself fails with an
    error that [pathlib] does not turn into [False] (a permission error),
    [mkdir_fails] and [chmod_fails] for which paths [Path.mkdir()] (no
    [parents], no [exist_ok]) and [os.chmod] fail. Each such failure is an
    [OSError]. *)

Record World := {
  config : string -> string;
  now_strftime : string;
  random_digits : string;
  check_aw_env_var_is_set : string -> bool;
  check_aw_env_var_true : string -> bool;
  get_aw_env_var : string -> option string;
  is_file : string -> bool;
  path_exists : string -> bool;
  is_dir : string -> bool;
  stat_fails : string -> bool;
  mkdir_fails : string -> bool;
  chmod_fails : string -> bool;
  get_choice_key_by_value : string -> Z;
}.

Inductive FsOp : Type :=
| Mkdir (path : string)
| Chmod (path : string) (mode : Z)
| Rmtree (path : string).

(** What the functions of [util.py] mutate: the execution object, the
    statuses persisted by [execution.save()] (oldest first), the file-system
    operations performed (oldest first) and the result tables. *)
Record Store := {
  st_execution : JobExecution;
  saved_status : list Z;
  fs_ops : list FsOp;
  results : list JobExecutionResult;
  result_hosts : list JobExecutionResultHost;
}.

Definition init_store (execution : JobExecution) : Store :=
  {| st_execution := execution; saved_status := []; fs_ops := [];
     results := []; result_hosts := [] |}.

Definition _update_execution_status (w : World) (st : Store) (status : string)
  : Store :=
  let key := get_choice_key_by_value w status in
  {| st_execution := set_status (st_execution st) key;
     saved_status := saved_status st ++ [key];
     fs_ops := fs_ops st;
     results := results st; result_hosts := result_hosts st |}.

Definition do_fs (st : Store) (op : FsOp) : Store :=
  {| st_execution := st_execution st; saved_status := saved_status st;
     fs_ops := fs_ops st ++ [op];
     results := results st; result_hosts := result_hosts st |}.

(** ** Runner options *)

(** The options dictionary; a key that may be absent is an [option]. *)
Record Opts := {
  runner_mode : string;
  private_data_dir : string;
  project_dir : string;
  quiet : bool;
  limit : option string;
  envvars : gmap string string;
  timeout : option (option string);
  directory_isolation_base_path : option string;
  process_isolation : option bool;
  process_isolation_hide_paths : option (option string);
  process_isolation_show_paths : option (option string);
  process_isolation_ro_paths : option (option string);
  playbook : option (list string);
  inventory : option (list string);
}.

(** Lines 47-52: the unique temporary execution directory. *)
Definition build_path_run (w : World) : string :=
  let path_run := config w "path_run" in
  let path_run := if PyStr.endswith path_run slash then path_run
                  else path_run +:+ "/" in
  let path_run := path_run +:+ now_strftime w in
  path_run +:+ random_digits w.

(** Lines 54-66: merge of the job's and the execution's variables. *)
Definition merge_env_vars (job : Job) (execution : JobExecution)
  : result (gmap string string) :=
  let env_vars : gmap string string := ∅ in
  env_vars ←
    match job_environment_vars job with
    | Some csv => d ← _decode_env_vars csv "Job"; Ok (d ∪ env_vars)
    | None => Ok env_vars
    end;
  match exec_environment_vars execution with
  | Some csv => d ← _decode_env_vars csv "Execution"; Ok (d ∪ env_vars)
  | None => Ok env_vars
  end.

Definition _runner_options (w : World) (job : Job) (execution : JobExecution)
  : result Opts :=
  let path_run := build_path_run w in
  env_vars ← merge_env_vars job execution;
  let opts_timeout :=
    if check_aw_env_var_is_set w "run_timeout"
    then Some (get_aw_env_var w "run_timeout") else None in
  isolation_base ←
    (if check_aw_env_var_true w "run_isolate_dir"
     then p ← PyStr.truediv path_run "play_base"; Ok (Some p)
     else Ok None);
  let isolate := check_aw_env_var_true w "run_isolate_process" in
  Ok {| runner_mode := "pexpect";
        private_data_dir := path_run;
        project_dir := config w "path_play";
        quiet := true;
        limit := match exec_limit execution with
                 | Some l => Some l
                 | None => job_limit job
                 end;
        envvars := env_vars;
        timeout := opts_timeout;
        directory_isolation_base_path := isolation_base;
        process_isolation := if isolate then Some true else None;
        process_isolation_hide_paths :=
          if isolate then Some (get_aw_env_var w "run_isolate_process_path_hide")
          else None;
        process_isolation_show_paths :=
          if isolate then Some (get_aw_env_var w "run_isolate_process_path_show")
          else None;
        process_isolation_ro_paths :=
          if isolate then Some (get_aw_env_var w "run_isolate_process_path_ro")
          else None;
        playbook := None;
        inventory := None |}.

(** ** [runner_prep] *)

Definition playbook_not_found (ppf : string) : exn :=
  AnsibleConfigError ("Configured playbook not found: '" +:+ ppf +:+ "'").

Definition inventory_not_found (pi : string) : exn :=
  AnsibleConfigError ("Configured inventory not found: '" +:+ pi +:+ "'").

Fixpoint check_playbooks (w : World) (project_dir : string)
  (playbooks : list string) : result unit :=
  match playbooks with
  | [] => Ok tt
  | playbook :: rest =>
      let ppf := project_dir +:+ playbook in
      if stat_fails w ppf then Err OSError
      else if is_file w ppf then check_playbooks w project_dir rest
      else Err (playbook_not_found ppf)
  end.

Fixpoint check_inventories (w : World) (project_dir : string)
  (inventories : list string) : result unit :=
  match inventories with
  | [] => Ok tt
  | inventory :: rest =>
      let pi := project_dir +:+ inventory in
      if stat_fails w pi then Err OSError
      else if path_exists w pi then check_inventories w project_dir rest
      else Err (inventory_not_found pi)
  end.

Definition with_playbook_inventory (opts : Opts)
  (playbooks inventories : list string) : Opts :=
  {| runner_mode := runner_mode opts;
     private_data_dir := private_data_dir opts;
     project_dir := project_dir opts;
     quiet := quiet opts;
     limit := limit opts;
     envvars := envvars opts;
     timeout := timeout opts;
     directory_isolation_base_path := directory_isolation_base_path opts;
     process_isolation := process_isolation opts;
     process_isolation_hide_paths := process_isolation_hide_paths opts;
     process_isolation_show_paths := process_isolation_show_paths opts;
     process_isolation_ro_paths := process_isolation_ro_paths opts;
     playbook := Some playbooks;
     inventory := Some inventories |}.

(** [0o750] *)
Definition mode_750 : Z := 488.

(** Lines 117-120: [pdd = Path(...)], [if not pdd.is_dir(): pdd.mkdir();
    chmod(path=pdd, mode=0o750)]. A failing [chmod] leaves the directory
    that [mkdir] has just made. *)
Definition make_run_directory (w : World) (pdd : string) (st : Store)
  : result unit * Store :=
  if stat_fails w pdd then (Err OSError, st)
  else if is_dir w pdd then (Ok tt, st)
  else if mkdir_fails w pdd then (Err OSError, st)
  else
    let st := do_fs st (Mkdir pdd) in
    if chmod_fails w pdd then (Err OSError, st)
    else (Ok tt, do_fs st (Chmod pdd mode_750)).

(** The pair returned is what the call raised or returned, and the store
    as the call left it. *)
Definition runner_prep (w : World) (job : Job) (execution : option JobExecution)
  : result Opts * Store :=
  let execution := match execution with
                   | Some e => e
                   | None => scheduled_execution job
                   end in
  let st := _update_execution_status w (init_store execution) "Starting" in
  match _runner_options w job execution with
  | Err e => (Err e, st)
  | Ok opts =>
      let playbooks := PyStr.split comma (job_playbook job) in
      let inventories := PyStr.split comma (job_inventory job) in
      let opts := with_playbook_inventory opts playbooks inventories in
      let project_dir := project_dir opts in
      let project_dir := if PyStr.endswith project_dir slash then project_dir
                         else project_dir +:+ "/" in
      match check_playbooks w project_dir playbooks with
      | Err e => (Err e, st)
      | Ok _ =>
          match check_inventories w project_dir inventories with
          | Err e => (Err e, st)
          | Ok _ =>
              let pdd := private_data_dir opts in
              match make_run_directory w pdd st with
              | (Err e, st) => (Err e, st)
              | (Ok _, st) =>
                  let st := _update_execution_status w st "Running" in
                  (Ok opts, st)
              end
          end
      end
  end.

Definition runner_cleanup (opts : Opts) (st : Store) : Store :=
  do_fs st (Rmtree (private_data_dir opts)).

(** ** [parse_run_result] *)

(** A Python [dict] from host names to counts, as its items in insertion
    order (a key occurs once). *)
Definition hostdict : Type := list (string * Z).

Module PyDict.

(** [d.get(host)] *)
Fixpoint get (d : hostdict) (host : string) : option Z :=
  match d with
  | [] => None
  | (k, n) :: rest => if String.eqb k host then Some n else get rest host
  end.

(** [host in d] *)
Definition mem (d : hostdict) (host : string) : bool :=
  match get d host with
  | Some _ => true
  | None => false
  end.

(** The keys, as [for host in d] visits them. *)
Definition keys (d : hostdict) : list string := map fst d.

End PyDict.

(** The outcome object of the runner: the [errored] flag and [stats],
    which is [None] or a [dict] from category names to host dicts. *)
Record AnsibleRunner := {
  errored : bool;
  stats : option (gmap string hostdict);
}.

(** [result.stats[category]] for the outcome [runner] (the source's
    [result]): subscripting [None] raises [TypeError], a
    missing key raises [KeyError]. *)
Definition stats_item (runner : AnsibleRunner) (category : string)
  : result hostdict :=
  match stats runner with
  | None => Err TypeError
  | Some s =>
      match s !! category with
      | Some d => Ok d
      | None => Err KeyError
      end
  end.

(** [result.stats[c][host] if host in result.stats[c] else 0] *)
Definition count_or_zero (runner : AnsibleRunner) (category host : string)
  : result Z :=
  d ← stats_item runner category;
  Ok (match PyDict.get d host with
      | Some n => n
      | None => 0
      end).

(** The body of the loop over the processed hosts, up to [save()]. *)
Definition make_result_host (runner : AnsibleRunner) (job_result : nat)
  (host : string) : result JobExecutionResultHost :=
  unreachable_hosts ← stats_item runner "unreachable";
  skipped ← count_or_zero runner "skipped" host;
  ok ← count_or_zero runner "ok" host;
  failed ← count_or_zero runner "failures" host;
  ignored ← count_or_zero runner "ignored" host;
  rescued ← count_or_zero runner "rescued" host;
  changed ← count_or_zero runner "changed" host;
  Ok {| unreachable := PyDict.mem unreachable_hosts host;
        tasks_skipped := skipped;
        tasks_ok := ok;
        tasks_failed := failed;
        tasks_ignored := ignored;
        tasks_rescued := rescued;
        tasks_changed := changed;
        host_result := job_result |}.

Definition save_result (st : Store) (r : JobExecutionResult) : nat * Store :=
  (length (results st),
   {| st_execution := st_execution st; saved_status := saved_status st;
      fs_ops := fs_ops st;
      results := results st ++ [r]; result_hosts := result_hosts st |}).

Definition save_result_host (st : Store) (h : JobExecutionResultHost) : Store :=
  {| st_execution := st_execution st; saved_status := saved_status st;
     fs_ops := fs_ops st;
     results := results st; result_hosts := result_hosts st ++ [h] |}.

Definition set_execution_result (st : Store) (ref : nat) : Store :=
  {| st_execution := set_result (st_execution st) ref;
     saved_status := saved_status st; fs_ops := fs_ops st;
     results := results st; result_hosts := result_hosts st |}.

(** The loop over the processed hosts; what an iteration raises leaves
    the loop, with the records saved so far. *)
Fixpoint save_hosts (runner : AnsibleRunner) (job_result : nat)
  (hosts : list string) (st : Store) : result unit * Store :=
  match hosts with
  | [] => (Ok tt, st)
  | host :: rest =>
      match make_result_host runner job_result host with
      | Err e => (Err e, st)
      | Ok result_host =>
          save_hosts runner job_result rest (save_result_host st result_host)
      end
  end.

Definition parse_run_result (w : World) (st : Store) (start : Z)
  (runner : AnsibleRunner) : result unit * Store :=
  let job_result := {| time_start := start; failed := errored runner |} in
  let '(ref, st) := save_result st job_result in
  match stats_item runner "processed" with
  | Err e => (Err e, st)
  | Ok processed =>
      match save_hosts runner ref (PyDict.keys processed) st with
      | (Err e, st) => (Err e, st)
      | (Ok _, st) =>
          let st := set_execution_result st ref in
          (Ok tt,
           if failed job_result then _update_execution_status w st "Failed"
           else _update_execution_status w st "Finished")
      end
  end.

(** ** [aw/execute/threader.py] *)

(** Modelled from the spec: the [Job] model class of [aw.model.job] is not
    among the sources, so its [==] is taken from section 4.1 ("looks up the
    worker for job by identity"): two jobs are equal when they have the same
    identity. *)
Definition job_eqb (a b : Job) : bool := Z.eqb (job_id a) (job_id b).

(** Identity of a [Workload] object. *)
Definition ref := nat.

Inductive pyobj : Type :=
| ObjWorkload (r : ref)
| ObjJob (j : Job).

(** The Python [set] of workers held by the manager. Workers hash and
    compare by identity; the list gives the order in which the set is
    iterated. *)
Module PySet.

Definition mem (r : ref) (s : list ref) : bool := existsb (Nat.eqb r) s.

Definition add (r : ref) (s : list ref) : list ref :=
  if mem r s then s else s ++ [r].

Definition discard (r : ref) (s : list ref) : list ref :=
  List.filter (fun r' => negb (Nat.eqb r r')) s.

(** [s.remove(x)] raises [KeyError] when no element equals [x]; a [Job]
    is equal to no [Workload]. *)
Definition remove (x : pyobj) (s : list ref) : result (list ref) :=
  match x with
  | ObjWorkload r => if mem r s then Ok (discard r s) else Err KeyError
  | ObjJob _ => Err KeyError
  end.

End PySet.

(** What other threads and the outside do while a worker runs. The index
    is the number of blocking calls the worker has made so far.
    [concurrent_stop] tells how far a [stop()] issued by another thread on
    this worker has got when the blocking call ends. [recursion_limit] is
    the number of nested calls of [run] the interpreter's stack has room
    for under the call the thread makes (the interpreter's recursion
    limit, 1000 unless changed, less the frames in use). *)
Inductive stop_phase : Type :=
| NoStop
| StopSignalled
| StopCompleted.

Record Oracle := {
  ansible_playbook : nat -> Job -> option JobExecution -> option exn;
  concurrent_stop : nat -> stop_phase;
  get_next_cron_execution_sec : string -> result Z;
  get_next_cron_execution_str : string -> Z -> result string;
  recursion_limit : nat;
}.

Inductive Action : Type :=
| ASleep (sec : Z)
| ARunPlaybook (job : Job) (execution : option JobExecution)
| AWait (sec : Z).

Module Workload.

Definition FAIL_SLEEP : Z := 5.

(** [spawned] is the state of the [Thread] base class: [start()] has been
    called. [state_stop] is whether the event is set. *)
Record t := {
  job : Job;
  execution : option JobExecution;
  once : bool;
  name : string;
  started : bool;
  stopped : bool;
  state_stop : bool;
  next_execution_time : option string;
  spawned : bool;
}.

Definition init (job : Job) (name : string)
  (execution : option JobExecution) (once : bool) : t :=
  {| job := job; execution := execution; once := once; name := name;
     started := false; stopped := false; state_stop := false;
     next_execution_time := None; spawned := false |}.

Definition set_flags (self : t) (started stopped state_stop : bool) : t :=
  {| job := job self; execution := execution self; once := once self;
     name := name self;
     started := started; stopped := stopped; state_stop := state_stop;
     next_execution_time := next_execution_time self;
     spawned := spawned self |}.

Definition set_next_execution_time (self : t) (s : string) : t :=
  {| job := job self; execution := execution self; once := once self;
     name := name self;
     started := started self; stopped := stopped self;
     state_stop := state_stop self;
     next_execution_time := Some s;
     spawned := spawned self |}.

Definition set_spawned (self : t) : t :=
  {| job := job self; execution := execution self; once := once self;
     name := name self;
     started := started self; stopped := stopped self;
     state_stop := state_stop self;
     next_execution_time := next_execution_time self;
     spawned := true |}.

(** [stop]: sets the event, joins (a failed or timed-out join is only
    logged), clears [started], sets [stopped], returns [True]. *)
Definition stop (self : t) : bool * t :=
  (true, set_flags self false true true).

(** [Thread.start()]: a thread can be started only once. *)
Definition start (self : t) : result t :=
  if spawned self then Err RuntimeError else Ok (set_spawned self).

Definition interfere (ph : stop_phase) (self : t) : t :=
  match ph with
  | NoStop => self
  | StopSignalled => set_flags self (started self) (stopped self) true
  | StopCompleted => snd (stop self)
  end.

(** The worker as its own thread sees it, with the manager's set. *)
Record RunState := {
  self : t;
  threads : list ref;
  tick : nat;
  trace : list Action;
}.

Definition with_self (rs : RunState) (s : t) : RunState :=
  {| self := s; threads := threads rs; tick := tick rs; trace := trace rs |}.

Definition with_threads (rs : RunState) (s : list ref) : RunState :=
  {| self := self rs; threads := s; tick := tick rs; trace := trace rs |}.

Definition act (rs : RunState) (a : Action) : RunState :=
  {| self := self rs; threads := threads rs; tick := tick rs;
     trace := trace rs ++ [a] |}.

(** A blocking call ends: concurrent stops take effect. *)
Definition blocked (o : Oracle) (rs : RunState) : RunState :=
  {| self := interfere (concurrent_stop o (tick rs)) (self rs);
     threads := threads rs; tick := S (tick rs); trace := trace rs |}.

Definition sleep (sec : Z) (rs : RunState) : RunState := act rs (ASleep sec).

(** [self.state_stop.wait(wait_sec)]: [True] at once when the event is
    set, [True] when it is set during the wait, [False] on time-out. *)
Definition state_stop_wait (o : Oracle) (wait_sec : Z) (rs : RunState)
  : bool * RunState :=
  let rs := act rs (AWait wait_sec) in
  if state_stop (self rs) then (true, rs)
  else let rs := blocked o rs in (state_stop (self rs), rs).

Definition run_playbook (o : Oracle) (rs : RunState)
  : result unit * RunState :=
  let outcome :=
    ansible_playbook o (tick rs) (job (self rs)) (execution (self rs)) in
  let rs := act rs (ARunPlaybook (job (self rs)) (execution (self rs))) in
  let rs := blocked o rs in
  (match outcome with
   | None => Ok tt
   | Some e => Err e
   end, rs).

Inductive outcome : Type :=
| Returned (rs : RunState)
| Raised (e : exn) (rs : RunState)
| OutOfFuel (rs : RunState).

(** [while not self.state_stop.wait(wait_sec): ...] *)
Fixpoint loop (o : Oracle) (fuel : nat) (wait_sec : Z) (rs : RunState)
  : outcome :=
  match fuel with
  | O => OutOfFuel rs
  | S fuel' =>
      let '(signalled, rs) := state_stop_wait o wait_sec rs in
      if signalled then Returned rs
      else if state_stop (self rs) then Returned rs
      else match run_playbook o rs with
           | (Ok _, rs) => loop o fuel' wait_sec rs
           | (Err e, rs) => Raised e rs
           end
  end.

(** The [try] block of [run]. *)
Definition body (o : Oracle) (fuel : nat) (rs : RunState) : outcome :=
  if once (self rs) then
    match run_playbook o rs with
    | (Err e, rs) => Raised e rs
    | (Ok _, rs) =>
        let rs := with_self rs (snd (stop (self rs))) in
        match PySet.remove (ObjJob (job (self rs))) (threads rs) with
        | Err e => Raised e rs
        | Ok s => Returned (with_threads rs s)
        end
    end
  else
    match get_next_cron_execution_sec o (job_schedule (job (self rs))) with
    | Err e => Raised e rs
    | Ok wait_sec =>
        match get_next_cron_execution_str o
                (job_schedule (job (self rs))) wait_sec with
        | Err e => Raised e rs
        | Ok s =>
            loop o fuel wait_sec
              (with_self rs (set_next_execution_time (self rs) s))
        end
    end.

(** The statements of [run] between its guards and the [try] block:
    [if error: sleep(self.FAIL_SLEEP)] and [self.started = True]. *)
Definition enter (error : bool) (rs : RunState) : RunState :=
  let rs := if error then sleep FAIL_SLEEP rs else rs in
  with_self rs
    (set_flags (self rs) true (stopped (self rs)) (state_stop (self rs))).

(** [run], as the call number [depth] of the nest of calls that the
    handlers build. Every [exn] is an [Exception], so one of the two
    handlers catches whatever the [try] block raises; both call
    [self.run(error=True)]. That call is made inside the handler, one
    frame deeper: when the stack has no room for it, it raises
    [RecursionError], and what a call made inside a handler raises leaves
    the handler, and with it every enclosing call of [run]. *)
Fixpoint run_nested (o : Oracle) (fuel : nat) (depth : nat) (error : bool)
  (rs : RunState) : outcome :=
  match fuel with
  | O => OutOfFuel rs
  | S fuel' =>
      if once (self rs) && started (self rs) then Returned rs
      else if stopped (self rs) then Returned rs
      else
        match body o fuel' (enter error rs) with
        | Returned rs => Returned rs
        | Raised _ rs =>
            if (recursion_limit o <=? depth)%nat
            then Raised RecursionError rs
            else run_nested o fuel' (S depth) true rs
        | OutOfFuel rs => OutOfFuel rs
        end
  end.

(** [run], as the thread of the worker calls it. *)
Definition run (o : Oracle) (fuel : nat) (error : bool) (rs : RunState)
  : outcome :=
  run_nested o fuel 0 error rs.

(** The state a call of [run] has reached. *)
Definition final (out : outcome) : RunState :=
  match out with
  | Returned rs => rs
  | Raised _ rs => rs
  | OutOfFuel rs => rs
  end.

End Workload.

Module ThreadManager.

(** [heap] holds the [Workload] objects this manager has created, by
    identity; [threads], [thread_nr] and [stopping] are the attributes of
    the class. *)
Record t := {
  heap : gmap ref Workload.t;
  threads : list ref;
  thread_nr : nat;
  stopping : bool;
}.

Definition init : t :=
  {| heap := ∅; threads := []; thread_nr := O; stopping := false |}.

Definition thread_name (nr : nat) : string := "Thread #" +:+ pretty nr.

(** A fresh [Workload] is a new object: its identity is the thread
    number it is created with. *)
Definition add_thread (m : t) (job : Job) (execution : option JobExecution)
  (once : bool) : t :=
  let nr := S (thread_nr m) in
  let thread := Workload.init job (thread_name nr) execution once in
  {| heap := <[nr := thread]> (heap m);
     threads := PySet.add nr (threads m);
     thread_nr := nr;
     stopping := stopping m |}.

Definition with_threads (m : t) (s : list ref) : t :=
  {| heap := heap m; threads := s; thread_nr := thread_nr m;
     stopping := stopping m |}.

Definition with_thread (m : t) (r : ref) (thread : Workload.t) : t :=
  {| heap := <[r := thread]> (heap m); threads := threads m;
     thread_nr := thread_nr m; stopping := stopping m |}.

(** The loop of [stop]: remove every element of the snapshot. *)
Fixpoint remove_all (thread_list : list ref) (s : list ref)
  : result (list ref) :=
  match thread_list with
  | [] => Ok s
  | thread :: rest =>
      s' ← PySet.remove (ObjWorkload thread) s; remove_all rest s'
  end.

Definition stop (m : t) : result bool * t :=
  if stopping m then (Ok false, m)
  else
    let m := {| heap := heap m; threads := threads m;
                thread_nr := thread_nr m; stopping := true |} in
    let thread_list := threads m in
    match remove_all thread_list (threads m) with
    | Ok s => (Ok true, with_threads m s)
    | Err e => (Err e, m)
    end.

(** First worker of the iteration that passes the test. *)
Fixpoint first_thread (h : gmap ref Workload.t) (test : Workload.t -> bool)
  (s : list ref) : option (ref * Workload.t) :=
  match s with
  | [] => None
  | r :: rest =>
      match h !! r with
      | Some thread =>
          if test thread then Some (r, thread) else first_thread h test rest
      | None => first_thread h test rest
      end
  end.

Definition stop_thread (m : t) (job : Job) : t :=
  match first_thread (heap m)
          (fun thread => job_eqb (Workload.job thread) job
                         && Workload.started thread) (threads m) with
  | Some (r, thread) =>
      let m := with_thread m r (snd (Workload.stop thread)) in
      with_threads m (PySet.discard r (threads m))
  | None => m
  end.

Definition start_thread (m : t) (job : Job) : result unit * t :=
  match first_thread (heap m)
          (fun thread => job_eqb (Workload.job thread) job
                         && negb (Workload.started thread)) (threads m) with
  | Some (r, thread) =>
      match Workload.start thread with
      | Ok thread => (Ok tt, with_thread m r thread)
      | Err e => (Err e, m)
      end
  | None => (Ok tt, m)
  end.

Fixpoint start_each (m : t) (s : list ref) : result unit * t :=
  match s with
  | [] => (Ok tt, m)
  | r :: rest =>
      match heap m !! r with
      | Some thread =>
          if Workload.started thread then start_each m rest
          else match Workload.start thread with
               | Ok thread => start_each (with_thread m r thread) rest
               | Err e => (Err e, m)
               end
      | None => start_each m rest
      end
  end.

Definition start (m : t) : result unit * t := start_each m (threads m).

Definition replace_thread (m : t) (job : Job) : result unit * t :=
  let m := stop_thread m job in
  let m := add_thread m job None false in
  start_thread m job.

(** The thread of worker [r] executes [run()] with [fuel] steps; the
    worker and the set are left as the thread has them then. *)
Definition run_thread (o : Oracle) (fuel : nat) (r : ref) (m : t)
  : option (Workload.outcome * t) :=
  match heap m !! r with
  | None => None
  | Some thread =>
      let rs := {| Workload.self := thread; Workload.threads := threads m;
                   Workload.tick := O; Workload.trace := [] |} in
      let out := Workload.run o fuel false rs in
      let rs' := Workload.final out in
      Some (out, with_threads (with_thread m r (Workload.self rs'))
                   (Workload.threads rs'))
  end.

(** [list]: the job of every worker in the set. *)
Definition list (m : t) : list Job :=
  omap (fun r => Workload.job <$> heap m !! r) (threads m).

End ThreadManager.

(** ** Predicates used by the statements *)

Definition env_ok (csv : option string) : bool :=
  match csv with
  | Some s => well_formed_csv s
  | None => true
  end.

Definition the_execution (job : Job) (execution : option JobExecution)
  : JobExecution :=
  match execution with
  | Some e => e
  | None => scheduled_execution job
  end.

(** The store of a preparation that stopped at "Starting": one status
    saved, nothing done on the file system. *)
Definition stopped_at_starting (w : World)
  (st : Store) : Prop :=
  exec_status (st_execution st) = Some (get_choice_key_by_value w "Starting")
  /\ saved_status st = [get_choice_key_by_value w "Starting"]
  /\ fs_ops st = [].


(** ** Concrete data for the examples *)

Definition demo_job : Job :=
  {| job_id := 1; job_name := "deploy"; job_schedule := "* * * * *";
     job_playbook := "site.yml"; job_inventory := "hosts";
     job_limit := None; job_environment_vars := Some "A=1,B=2" |}.

Definition demo_execution : JobExecution :=
  {| exec_user := Some 7; exec_job := demo_job; exec_comment := None;
     exec_limit := None; exec_environment_vars := Some "B=3,C=4";
     exec_status := None; exec_result := None |}.

Definition with_job_env (job : Job) (csv : option string) : Job :=
  {| job_id := job_id job; job_name := job_name job;
     job_schedule := job_schedule job; job_playbook := job_playbook job;
     job_inventory := job_inventory job; job_limit := job_limit job;
     job_environment_vars := csv |}.

Definition with_exec_env (execution : JobExecution) (csv : option string)
  : JobExecution :=
  {| exec_user := exec_user execution; exec_job := exec_job execution;
     exec_comment := exec_comment execution; exec_limit := exec_limit execution;
     exec_environment_vars := csv;
     exec_status := exec_status execution;
     exec_result := exec_result execution |}.

Definition with_playbook (job : Job) (playbook : string) : Job :=
  {| job_id := job_id job; job_name := job_name job;
     job_schedule := job_schedule job; job_playbook := playbook;
     job_inventory := job_inventory job; job_limit := job_limit job;
     job_environment_vars := job_environment_vars job |}.

Definition demo_status_key (status : string) : Z :=
  if String.eqb status "Starting" then 1
  else if String.eqb status "Running" then 2
  else if String.eqb status "Failed" then 3
  else if String.eqb status "Finished" then 4
  else 0.

(** A world in which [site.yml] and [hosts] exist under the project root
    [/srv/play]; [toggles] lists the environment toggles that are on. *)
Definition demo_world (toggles : list string) : World :=
  {| config := fun key => if String.eqb key "path_run" then "/tmp/aw"
                          else "/srv/play";
     now_strftime := "2024-01-01_00-00-00";
     random_digits := "12345";
     check_aw_env_var_is_set := fun _ => false;
     check_aw_env_var_true := fun key => existsb (String.eqb key) toggles;
     get_aw_env_var := fun _ => None;
     is_file := fun p => String.eqb p "/srv/play/site.yml";
     path_exists := fun p => String.eqb p "/srv/play/site.yml"
                             || String.eqb p "/srv/play/hosts";
     is_dir := fun _ => false;
     stat_fails := fun _ => false;
     mkdir_fails := fun _ => false;
     chmod_fails := fun _ => false;
     get_choice_key_by_value := demo_status_key |}.

(** The project root every playbook and inventory is resolved under. *)
Definition project_root (w : World) : string :=
  let project_dir := config w "path_play" in
  if PyStr.endswith project_dir slash then project_dir
  else project_dir +:+ "/".

Definition playbooks_present (w : World) (job : Job) : bool :=
  forallb (fun playbook => is_file w (project_root w +:+ playbook))
    (PyStr.split comma (job_playbook job)).

Definition inventories_present (w : World) (job : Job) : bool :=
  forallb (fun inventory => path_exists w (project_root w +:+ inventory))
    (PyStr.split comma (job_inventory job)).

(** Every test of a playbook or inventory path of the job answers. *)
Definition paths_readable (w : World) (job : Job) : bool :=
  forallb (fun path => negb (stat_fails w (project_root w +:+ path)))
    (PyStr.split comma (job_playbook job)
     ++ PyStr.split comma (job_inventory job)).

(** The host dict of a category, empty when [stats] does not have it. *)
Definition category (result : AnsibleRunner) (name : string) : hostdict :=
  match stats_item result name with
  | Ok d => d
  | Err _ => []
  end.

(** The hosts of the "processed" dict, in the order the loop visits
    them. *)
Definition processed_hosts (result : AnsibleRunner) : list string :=
  PyDict.keys (category result "processed").

(** What the specification asks of the per-host record of [host], stated
    on the lookups of the runner's dicts. *)
Definition host_record_ok (result : AnsibleRunner) (job_result : nat)
  (host : string) (h : JobExecutionResultHost) : Prop :=
  (unreachable h = true
   <-> is_Some (PyDict.get (category result "unreachable") host))
  /\ tasks_skipped h = default 0 (PyDict.get (category result "skipped") host)
  /\ tasks_ok h = default 0 (PyDict.get (category result "ok") host)
  /\ tasks_failed h = default 0 (PyDict.get (category result "failures") host)
  /\ tasks_ignored h = default 0 (PyDict.get (category result "ignored") host)
  /\ tasks_rescued h = default 0 (PyDict.get (category result "rescued") host)
  /\ tasks_changed h = default 0 (PyDict.get (category result "changed") host)
  /\ host_result h = job_result.

(** The categories [parse_run_result] subscripts. *)
Definition categories_read : list string :=
  ["processed"; "unreachable"; "skipped"; "ok"; "failures"; "ignored";
   "rescued"; "changed"].

Definition has_categories (result : AnsibleRunner) (names : list string)
  : bool :=
  forallb (fun name => match stats_item result name with
                       | Ok _ => true
                       | Err _ => false
                       end) names.

(** The [stats] property of [ansible_runner.Runner], the class
    [parse_run_result] is typed for ([util.py], lines 8 and 131): [None]
    when the run has no [playbook_on_stats] event, else a dict with the
    categories [skipped], [ok], [dark], [failures], [ignored], [rescued],
    [processed] and [changed] of the event, each empty when the event
    lacks it. The unreachable hosts are under [dark]; there is no
    [unreachable] key. *)
Definition runner_categories : list string :=
  ["skipped"; "ok"; "dark"; "failures"; "ignored"; "rescued"; "processed";
   "changed"].

Definition runner_stats (event_data : option (gmap string hostdict))
  : option (gmap string hostdict) :=
  match event_data with
  | None => None
  | Some event =>
      Some (list_to_map
              (map (fun name => (name, default [] (event !! name)))
                 runner_categories))
  end.

(** The outcome of a run of the runner over the host [h1]: three tasks ok,
    nothing else, no error. *)
Definition runner_outcome : AnsibleRunner :=
  {| errored := false;
     stats := runner_stats
                (Some (list_to_map [("processed", [("h1", 1)]);
                                    ("ok", [("h1", 3)])])) |}.

(** The outcome of the specification's example, as a dict that has every
    category the function subscripts: [h2] and [h1] processed in this
    order, [h1] with two failures, and the run errored. *)
Definition demo_outcome : AnsibleRunner :=
  {| errored := true;
     stats := Some (list_to_map
                      [("processed", [("h2", 1); ("h1", 1)]);
                       ("unreachable", [("h2", 1)]);
                       ("skipped", []);
                       ("ok", []);
                       ("failures", [("h1", 2)]);
                       ("ignored", []);
                       ("rescued", []);
                       ("changed", [])]) |}.

(** ** Operations on the manager, as a sequence *)

(** A call on the manager, or the thread of a worker executing [run()]
    for a while. *)
Inductive Op : Type :=
| AddThread (job : Job) (execution : option JobExecution) (once : bool)
| ReplaceThread (job : Job)
| StopThread (job : Job)
| StartThread (job : Job)
| RunThread (o : Oracle) (fuel : nat) (r : ref).

(** The manager after the call, whether it returned or raised. *)
Definition step (m : ThreadManager.t) (op : Op) : ThreadManager.t :=
  match op with
  | AddThread job execution once =>
      ThreadManager.add_thread m job execution once
  | ReplaceThread job => snd (ThreadManager.replace_thread m job)
  | StopThread job => ThreadManager.stop_thread m job
  | StartThread job => snd (ThreadManager.start_thread m job)
  | RunThread o fuel r =>
      match ThreadManager.run_thread o fuel r m with
      | Some (_, m') => m'
      | None => m
      end
  end.

Definition run_ops (m : ThreadManager.t) (ops : list Op) : ThreadManager.t :=
  fold_left step ops m.

Definition is_worker_of (m : ThreadManager.t) (job : Job) (r : ref) : bool :=
  match ThreadManager.heap m !! r with
  | Some thread => job_eqb (Workload.job thread) job
  | None => false
  end.

(** The workers of the active set that reference [job]. *)
Definition workers_of (m : ThreadManager.t) (job : Job) : list ref :=
  List.filter (is_worker_of m job) (ThreadManager.threads m).

Definition one_worker_per_job (m : ThreadManager.t) : Prop :=
  forall job, (length (workers_of m job) <= 1)%nat.

Definition has_started (m : ThreadManager.t) (r : ref) : bool :=
  match ThreadManager.heap m !! r with
  | Some thread => Workload.started thread
  | None => false
  end.

(** The calls under which the manager keeps one worker per job:
    [add_thread(job)] when no worker is registered for [job], and
    [replace_thread(job)] when every worker registered for [job] has
    started. *)
Definition admissible (m : ThreadManager.t) (op : Op) : bool :=
  match op with
  | AddThread job _ _ => Nat.eqb (length (workers_of m job)) 0
  | ReplaceThread job => forallb (has_started m) (workers_of m job)
  | _ => true
  end.

Fixpoint admissible_ops (m : ThreadManager.t) (ops : list Op) : bool :=
  match ops with
  | [] => true
  | op :: rest => admissible m op && admissible_ops (step m op) rest
  end.

(** An outside in which every playbook run succeeds, nobody stops the
    worker and the next run is in 60 seconds. *)
Definition calm_oracle : Oracle :=
  {| ansible_playbook := fun _ _ _ => None;
     concurrent_stop := fun _ => NoStop;
     get_next_cron_execution_sec := fun _ => Ok 60;
     get_next_cron_execution_str := fun _ _ => Ok "00:01";
     recursion_limit := 1000 |}.

(** An outside in which the blocking call number [k], a playbook run,
    raises [e]. *)
Definition failing_oracle (k : nat) (e : exn) : Oracle :=
  {| ansible_playbook := fun n _ _ => if Nat.eqb n k then Some e else None;
     concurrent_stop := fun _ => NoStop;
     get_next_cron_execution_sec := fun _ => Ok 60;
     get_next_cron_execution_str := fun _ _ => Ok "00:01";
     recursion_limit := 1000 |}.

Definition run_state (thread : Workload.t) (threads : list ref)
  : Workload.RunState :=
  {| Workload.self := thread; Workload.threads := threads;
     Workload.tick := O; Workload.trace := [] |}.

(** A manager whose only worker, for [demo_job], is running its loop. *)
Definition running_manager : ThreadManager.t :=
  run_ops ThreadManager.init
    [AddThread demo_job None false; StartThread demo_job;
     RunThread calm_oracle 1 1%nat].

(** A worker that [stop] has stopped. *)
Definition stopped_worker : Workload.t :=
  snd (Workload.stop (Workload.init demo_job "Thread #1" None false)).


Definition recurring_worker : Workload.RunState :=
  run_state (Workload.init demo_job "Thread #1" None false) [1%nat].

Definition once_worker : Workload.RunState :=
  run_state (Workload.init demo_job "Thread #1" None true) [1%nat].

(** What a call of [run] never changes: the manager's set, the job and
    the mode of the worker. *)
Definition same_frame (rs rs' : Workload.RunState) : Prop :=
  Workload.threads rs' = Workload.threads rs
  /\ Workload.job (Workload.self rs') = Workload.job (Workload.self rs)
  /\ Workload.once (Workload.self rs') = Workload.once (Workload.self rs).

(** A call of [run] only appends to the trace. *)
Definition trace_extends (rs rs' : Workload.RunState) : Prop :=
  exists suffix,
    Workload.trace rs' = (Workload.trace rs ++ suffix)%list.

(** Every worker of the set was created by this manager. *)
Definition well_formed (m : ThreadManager.t) : Prop :=
  forall r, In r (ThreadManager.threads m) ->
            (r <= ThreadManager.thread_nr m)%nat.

(** The manager after two calls that refute the invariant. *)
Definition doubled_manager : ThreadManager.t :=
  run_ops ThreadManager.init
    [AddThread demo_job None false; ReplaceThread demo_job].

(** A sequence in which a running worker is replaced, its successor is
    stopped once it runs, and a third worker is added and runs. *)
Definition replace_running : list Op :=
  [AddThread demo_job None false; StartThread demo_job;
   RunThread calm_oracle 1 1%nat; ReplaceThread demo_job;
   RunThread calm_oracle 1 2%nat; StopThread demo_job;
   AddThread demo_job None false; StartThread demo_job;
   RunThread calm_oracle 1 3%nat].

(** ** Further definitions: preparation, cleanup and the whole manager *)

(** The file-system operations of a run directory that did not exist:
    made, restricted to owner and group, and removed after the run. *)
Definition directory_lifecycle (pdd : string) : list FsOp :=
  [Mkdir pdd; Chmod pdd mode_750; Rmtree pdd].

(** The run directory can be provided: its test answers, and it is there
    already or [mkdir] and [chmod] succeed on it. *)
Definition directory_ready (w : World) : bool :=
  negb (stat_fails w (build_path_run w))
  && (is_dir w (build_path_run w)
      || negb (mkdir_fails w (build_path_run w))
         && negb (chmod_fails w (build_path_run w))).

(** The errors [runner_prep] can raise. *)
Inductive prep_error (w : World) (job : Job) : exn -> Prop :=
| PrepEnvVars (src : string) :
    src = "Job" \/ src = "Execution" ->
    prep_error w job (AnsibleConfigError (env_vars_error_msg src))
| PrepPlaybook (ppf : string) :
    is_file w ppf = false -> prep_error w job (playbook_not_found ppf)
| PrepInventory (pi : string) :
    path_exists w pi = false -> prep_error w job (inventory_not_found pi)
| PrepIsolateDir :
    check_aw_env_var_true w "run_isolate_dir" = true ->
    prep_error w job TypeError
| PrepFileSystem (path : string) :
    stat_fails w path = true \/ mkdir_fails w path = true
    \/ chmod_fails w path = true ->
    prep_error w job OSError.

(** What a preparation that raised has left: only "Starting" is saved, and
    the file system is untouched unless it was [chmod] that failed, which
    leaves the directory just made. *)
Definition left_by_failed_prep (w : World) (e : exn) (st : Store) : Prop :=
  exec_status (st_execution st) = Some (get_choice_key_by_value w "Starting")
  /\ saved_status st = [get_choice_key_by_value w "Starting"]
  /\ (fs_ops st = []
      \/ e = OSError
         /\ chmod_fails w (build_path_run w) = true
         /\ fs_ops st = [Mkdir (build_path_run w)]).

(** The world [w] with a file system in which [mkdir] fails (as it does
    when the parent of the run directory is missing), or [chmod]. *)
Definition with_fs_failures (w : World) (mkdir chmod : bool) : World :=
  {| config := config w; now_strftime := now_strftime w;
     random_digits := random_digits w;
     check_aw_env_var_is_set := check_aw_env_var_is_set w;
     check_aw_env_var_true := check_aw_env_var_true w;
     get_aw_env_var := get_aw_env_var w;
     is_file := is_file w; path_exists := path_exists w; is_dir := is_dir w;
     stat_fails := stat_fails w;
     mkdir_fails := fun _ => mkdir;
     chmod_fails := fun _ => chmod;
     get_choice_key_by_value := get_choice_key_by_value w |}.

(** The status a parsed outcome leaves on the execution. *)
Definition outcome_status (w : World) (result : AnsibleRunner) : Z :=
  get_choice_key_by_value w (if errored result then "Failed" else "Finished").

(** The outcome of a run that ended before any host was processed, with
    or without an error. *)
Definition hostless_outcome (errored : bool) : AnsibleRunner :=
  {| errored := errored; stats := runner_stats (Some ∅) |}.

(** ** Every call on the manager *)

(** The calls of the sequences above together with the manager's own
    [stop()] and [start()]. *)
Inductive Call : Type :=
| CallOp (op : Op)
| CallStop
| CallStart.

Definition call_step (m : ThreadManager.t) (c : Call) : ThreadManager.t :=
  match c with
  | CallOp op => step m op
  | CallStop => snd (ThreadManager.stop m)
  | CallStart => snd (ThreadManager.start m)
  end.

Definition run_calls (m : ThreadManager.t) (cs : list Call) : ThreadManager.t :=
  fold_left call_step cs m.

(** What every manager reached from the empty one satisfies: the set has
    no worker twice, and every worker of the set was created by this
    manager and is in the store. *)
Definition manager_ok (m : ThreadManager.t) : Prop :=
  NoDup (ThreadManager.threads m)
  /\ well_formed m
  /\ forall r, In r (ThreadManager.threads m) ->
               exists thread, ThreadManager.heap m !! r = Some thread.

(** The job of the worker [r], as [list] reads it. *)
Definition job_of (m : ThreadManager.t) (r : ref) (job : Job) : Prop :=
  exists thread,
    ThreadManager.heap m !! r = Some thread /\ Workload.job thread = job.

(** A worker the set holds that has been spawned although its [started]
    flag is unset. *)
Definition spawned_unstarted (m : ThreadManager.t) (r : ref) : Prop :=
  In r (ThreadManager.threads m)
  /\ exists thread,
       ThreadManager.heap m !! r = Some thread
       /\ Workload.started thread = false
       /\ Workload.spawned thread = true.

Definition all_started (m : ThreadManager.t) : bool :=
  forallb (has_started m) (ThreadManager.threads m).

(** A one-shot worker is added, the manager starts it, and its thread
    runs to the end. *)
Definition finished_one_shot : ThreadManager.t :=
  run_calls ThreadManager.init
    [CallOp (AddThread demo_job None true); CallStart;
     CallOp (RunThread calm_oracle 2 1%nat)].

(** A manager that was stopped while it still had nothing to run. *)
Definition stopped_manager : ThreadManager.t :=
  snd (ThreadManager.stop ThreadManager.init).

(** ** Traces of a worker *)

Definition is_playbook_run (a : Action) : bool :=
  match a with
  | ARunPlaybook _ _ => true
  | _ => false
  end.

(** The traces in which every playbook run comes right after a wait. *)
Inductive waits_first : list Action -> Prop :=
| WaitsNil : waits_first []
| WaitsSleep (sec : Z) (l : list Action) :
    waits_first l -> waits_first (ASleep sec :: l)
| WaitsWait (sec : Z) (l : list Action) :
    waits_first l -> waits_first (AWait sec :: l)
| WaitsRun (sec : Z) (job : Job) (execution : option JobExecution)
    (l : list Action) :
    waits_first l -> waits_first (AWait sec :: ARunPlaybook job execution :: l).

(** A worker on which [run] returns at once: a one-shot worker that has
    started, or a stopped worker. *)
Definition run_is_over (rs : Workload.RunState) : bool :=
  Workload.once (Workload.self rs) && Workload.started (Workload.self rs)
  || Workload.stopped (Workload.self rs).

(** An outside in which the schedule cannot be evaluated. *)
Definition broken_cron_oracle : Oracle :=
  {| ansible_playbook := fun _ _ _ => None;
     concurrent_stop := fun _ => NoStop;
     get_next_cron_execution_sec := fun _ => Err ValueError;
     get_next_cron_execution_str := fun _ _ => Err ValueError;
     recursion_limit := 1000 |}.

(** A recurring worker whose stop signal has been raised by a [stop()]
    that is still joining. *)
Definition signalled_worker : Workload.RunState :=
  run_state
    (Workload.interfere StopSignalled
       (Workload.init demo_job "Thread #1" None false)) [1%nat].

(** The calls that create a worker. *)
Definition creates_worker (c : Call) : bool :=
  match c with
  | CallOp (AddThread _ _ _) => true
  | CallOp (ReplaceThread _) => true
  | _ => false
  end.

Definition created (cs : list Call) : nat :=
  length (List.filter creates_worker cs).

(** The worker object after [start()] went over it. *)
Definition started_by_manager (thread : Workload.t) : Workload.t :=
  if Workload.started thread then thread else Workload.set_spawned thread.

(** No worker of the set has been spawned without having its [started]
    flag set. *)
Definition startable (m : ThreadManager.t) : Prop :=
  forall r thread,
    In r (ThreadManager.threads m) ->
    ThreadManager.heap m !! r = Some thread ->
    Workload.started thread = false ->
    Workload.spawned thread = false.

(** Two jobs added and not started yet. *)
Definition two_fresh_workers : ThreadManager.t :=
  run_calls ThreadManager.init
    [CallOp (AddThread demo_job None false);
     CallOp (AddThread (with_playbook demo_job "other.yml") None true)].

(** * Properties *)

(** ** Splitting and decoding *)

Section Decode.

Lemma split_nonempty sep s : PyStr.split sep s <> [].
Proof.
  destruct s as [|c rest]; simpl; [discriminate|].
  destruct (Ascii.eqb c sep); [discriminate|].
  destruct (PyStr.split sep rest); discriminate.
Qed.

Lemma split_length sep s :
  length (PyStr.split sep s) = S (PyStr.count sep s).
Proof.
  induction s as [|c rest IH]; simpl; [reflexivity|].
  destruct (Ascii.eqb c sep); simpl.
  - now rewrite IH.
  - destruct (PyStr.split sep rest) eqn:E; simpl in *; [discriminate|].
    exact IH.
Qed.

Lemma token_ok_split kv :
  token_ok kv = true <-> exists k v, PyStr.split equals kv = [k; v].
Proof.
  unfold token_ok. rewrite Nat.eqb_eq.
  pose proof (split_length equals kv) as Hlen.
  split.
  - intros Hc. rewrite Hc in Hlen.
    destruct (PyStr.split equals kv) as [|k [|v [|x l]]]; simpl in Hlen;
      try discriminate.
    now exists k, v.
  - intros (k & v & Hs). rewrite Hs in Hlen. simpl in Hlen. lia.
Qed.

Lemma decode_kv_ok env kv :
  token_ok kv = true ->
  exists k v, PyStr.split equals kv = [k; v]
              /\ decode_kv env kv = Ok (<[k := v]> env).
Proof.
  intros H. apply token_ok_split in H as (k & v & Hs).
  exists k, v. split; [exact Hs|]. unfold decode_kv. now rewrite Hs.
Qed.

Lemma decode_kv_bad env kv :
  token_ok kv = false -> decode_kv env kv = Err ValueError.
Proof.
  intros H. unfold decode_kv.
  destruct (PyStr.split equals kv) as [|k [|v [|x l]]] eqn:Hs; try reflexivity.
  assert (token_ok kv = true) by (apply token_ok_split; eauto).
  congruence.
Qed.

Lemma decode_loop_ok kvs : forall env,
  forallb token_ok kvs = true -> exists m, decode_loop kvs env = Ok m.
Proof.
  induction kvs as [|kv kvs IH]; intros env H; simpl in *.
  - eauto.
  - apply andb_prop in H as [Hkv Hrest].
    destruct (decode_kv_ok env kv Hkv) as (k & v & _ & ->). simpl.
    now apply IH.
Qed.

Lemma decode_loop_bad kvs : forall env,
  forallb token_ok kvs = false -> decode_loop kvs env = Err ValueError.
Proof.
  induction kvs as [|kv kvs IH]; intros env H; simpl in *; [discriminate|].
  destruct (token_ok kv) eqn:Hkv; simpl in H.
  - destruct (decode_kv_ok env kv Hkv) as (k & v & _ & ->). simpl.
    now apply IH.
  - now rewrite decode_kv_bad.
Qed.

Lemma decode_env_vars_ok csv src :
  well_formed_csv csv = true -> exists m, _decode_env_vars csv src = Ok m.
Proof.
  intros H. unfold _decode_env_vars.
  destruct (decode_loop_ok _ ∅ H) as [m ->]. eauto.
Qed.

Lemma decode_env_vars_bad csv src :
  well_formed_csv csv = false ->
  _decode_env_vars csv src = Err (AnsibleConfigError (env_vars_error_msg src)).
Proof.
  intros H. unfold _decode_env_vars.
  now rewrite (decode_loop_bad _ ∅ H).
Qed.

Lemma decode_env_vars_src csv src src' m :
  _decode_env_vars csv src = Ok m -> _decode_env_vars csv src' = Ok m.
Proof.
  unfold _decode_env_vars.
  destruct (decode_loop _ _) as [m'|[]]; congruence.
Qed.

Lemma empty_csv_malformed : well_formed_csv "" = false.
Proof. reflexivity. Qed.

End Decode.

(** ** Options and preparation *)

Lemma merge_env_vars_job_bad job execution csv :
  job_environment_vars job = Some csv ->
  well_formed_csv csv = false ->
  merge_env_vars job execution
  = Err (AnsibleConfigError (env_vars_error_msg "Job")).
Proof.
  intros Hj Hbad. unfold merge_env_vars. rewrite Hj.
  now rewrite (decode_env_vars_bad _ "Job" Hbad).
Qed.

Lemma merge_env_vars_exec_bad job execution csv :
  env_ok (job_environment_vars job) = true ->
  exec_environment_vars execution = Some csv ->
  well_formed_csv csv = false ->
  merge_env_vars job execution
  = Err (AnsibleConfigError (env_vars_error_msg "Execution")).
Proof.
  intros Hj He Hbad. unfold merge_env_vars. rewrite He.
  rewrite (decode_env_vars_bad _ "Execution" Hbad).
  destruct (job_environment_vars job) as [jcsv|]; simpl in *; [|reflexivity].
  destruct (decode_env_vars_ok jcsv "Job" Hj) as [m ->]. reflexivity.
Qed.

Lemma merge_env_vars_ok job execution :
  env_ok (job_environment_vars job) = true ->
  env_ok (exec_environment_vars execution) = true ->
  exists m, merge_env_vars job execution = Ok m.
Proof.
  intros Hj He. unfold merge_env_vars.
  destruct (job_environment_vars job) as [jcsv|]; simpl in *.
  - destruct (decode_env_vars_ok jcsv "Job" Hj) as [mj ->]. simpl.
    destruct (exec_environment_vars execution) as [ecsv|]; simpl in *.
    + destruct (decode_env_vars_ok ecsv "Execution" He) as [me ->].
      simpl. eauto.
    + eauto.
  - destruct (exec_environment_vars execution) as [ecsv|]; simpl in *.
    + destruct (decode_env_vars_ok ecsv "Execution" He) as [me ->].
      simpl. eauto.
    + eauto.
Qed.

Lemma runner_options_merge_err w job execution e :
  merge_env_vars job execution = Err e ->
  _runner_options w job execution = Err e.
Proof. intros H. unfold _runner_options. now rewrite H. Qed.

Lemma runner_options_envvars w job execution opts :
  _runner_options w job execution = Ok opts ->
  merge_env_vars job execution = Ok (envvars opts).
Proof.
  unfold _runner_options.
  destruct (merge_env_vars job execution) as [m|e]; simpl; [|discriminate].
  destruct (check_aw_env_var_true w "run_isolate_dir"); simpl; [discriminate|].
  intros [= <-]. reflexivity.
Qed.

(** With the directory-isolation toggle on, [path_run / 'play_base'] is
    reached whenever the variables decode, and raises. *)
Lemma runner_options_isolate_dir w job execution m :
  check_aw_env_var_true w "run_isolate_dir" = true ->
  merge_env_vars job execution = Ok m ->
  _runner_options w job execution = Err TypeError.
Proof.
  intros Ht Hm. unfold _runner_options. rewrite Hm. simpl. now rewrite Ht.
Qed.

Lemma runner_options_returns w job execution m :
  check_aw_env_var_true w "run_isolate_dir" = false ->
  merge_env_vars job execution = Ok m ->
  exists opts, _runner_options w job execution = Ok opts.
Proof.
  intros Ht Hm. unfold _runner_options. rewrite Hm. simpl. rewrite Ht.
  simpl. eauto.
Qed.

Lemma make_run_directory_error w pdd st e :
  fst (make_run_directory w pdd st) = Err e -> e = OSError.
Proof.
  unfold make_run_directory.
  destruct (stat_fails w pdd); [now intros [= <-]|].
  destruct (is_dir w pdd); [discriminate|].
  destruct (mkdir_fails w pdd); [now intros [= <-]|].
  destruct (chmod_fails w pdd); [now intros [= <-]|discriminate].
Qed.

(** An error other than a failure of the file system is raised before
    the run directory is touched. *)
Lemma runner_prep_error_store w job execution e :
  fst (runner_prep w job execution) = Err e ->
  e <> OSError ->
  snd (runner_prep w job execution)
  = _update_execution_status w (init_store (the_execution job execution))
      "Starting".
Proof.
  unfold runner_prep, the_execution.
  destruct (_runner_options _ _ _) as [opts|e']; [|reflexivity].
  cbv zeta.
  destruct (check_playbooks _ _ _); [|reflexivity].
  destruct (check_inventories _ _ _); [|reflexivity].
  match goal with
  | |- context [make_run_directory ?w ?p ?st] =>
      pose proof (make_run_directory_error w p st) as Hdir;
      destruct (make_run_directory w p st) as [[u|e'] st']
  end; cbn [fst snd] in *; [discriminate|].
  intros [= <-] Hne. now specialize (Hdir e' eq_refl).
Qed.

Lemma runner_prep_error_stopped w job execution e :
  fst (runner_prep w job execution) = Err e ->
  e <> OSError ->
  stopped_at_starting w (snd (runner_prep w job execution)).
Proof.
  intros H Hne. rewrite (runner_prep_error_store _ _ _ _ H Hne).
  repeat split.
Qed.

Lemma runner_prep_options_err w job execution e :
  _runner_options w job (the_execution job execution) = Err e ->
  fst (runner_prep w job execution) = Err e.
Proof.
  intros H. unfold runner_prep. fold (the_execution job execution).
  now rewrite H.
Qed.

(** ** Claims on the environment variables *)

(** C6. For well-formed Job and Execution environment-variable strings the
    mapping merged by the options builder holds, for every key of the
    Execution's mapping, the Execution's value, and for every other key
    what the Job's mapping holds for it (its value, or nothing); every
    options descriptor the builder returns carries exactly this mapping. *)
Theorem merged_env_vars_execution_wins
  (w : World) (job : Job) (execution : JobExecution)
  (job_csv exec_csv : string) :
  job_environment_vars job = Some job_csv ->
  exec_environment_vars execution = Some exec_csv ->
  well_formed_csv job_csv = true ->
  well_formed_csv exec_csv = true ->
  exists from_job from_exec merged : gmap string string,
    _decode_env_vars job_csv "Job" = Ok from_job
    /\ _decode_env_vars exec_csv "Execution" = Ok from_exec
    /\ merge_env_vars job execution = Ok merged
    /\ (forall k v, from_exec !! k = Some v -> merged !! k = Some v)
    /\ (forall k, from_exec !! k = None -> merged !! k = from_job !! k)
    /\ (forall opts, _runner_options w job execution = Ok opts ->
                     envvars opts = merged)
    /\ (check_aw_env_var_true w "run_isolate_dir" = false ->
        exists opts, _runner_options w job execution = Ok opts).
Proof.
  intros Hj He Hwj Hwe.
  destruct (decode_env_vars_ok job_csv "Job" Hwj) as [from_job Hdj].
  destruct (decode_env_vars_ok exec_csv "Execution" Hwe) as [from_exec Hde].
  assert (Hm : merge_env_vars job execution = Ok (from_exec ∪ (from_job ∪ ∅))).
  { unfold merge_env_vars. rewrite Hj, He, Hdj. simpl. rewrite Hde.
    reflexivity. }
  exists from_job, from_exec, (from_exec ∪ (from_job ∪ ∅)).
  repeat split; try assumption.
  - intros k v Hk. now apply lookup_union_Some_l.
  - intros k Hk. rewrite lookup_union_r by assumption.
    now rewrite (right_id_L ∅ (∪)).
  - intros opts Ho. apply runner_options_envvars in Ho. congruence.
  - intros Ht. eapply runner_options_returns; eassumption.
Qed.

Lemma merged_env_vars_execution_wins_witness :
  exists merged : gmap string string,
    merge_env_vars demo_job demo_execution = Ok merged
    /\ merged !! "A" = Some "1" /\ merged !! "B" = Some "3"
    /\ merged !! "C" = Some "4".
Proof.
  destruct (merged_env_vars_execution_wins (demo_world []) demo_job
              demo_execution "A=1,B=2" "B=3,C=4"
              eq_refl eq_refl eq_refl eq_refl)
    as (from_job & from_exec & merged & Hj & He & Hm & Hexec & Hjob & _).
  exists merged. split; [exact Hm|].
  vm_compute in Hj. vm_compute in He.
  injection Hj as <-. injection He as <-.
  repeat split.
  - rewrite Hjob by reflexivity. reflexivity.
  - apply Hexec. reflexivity.
  - apply Hexec. reflexivity.
Defined.

(** C10. An environment-variable field that is the empty string is not
    an empty mapping: preparation raises the configuration error (naming
    the Job when the Job's field is empty, the Execution when the Job's
    field is absent or well formed and the Execution's is empty) and stops
    at "Starting"; only when both fields are [None] is the merged mapping
    empty. *)
Theorem empty_env_vars_string_is_config_error
  (w : World) (job : Job) (execution : JobExecution) :
  (job_environment_vars job = Some "" ->
   fst (runner_prep w job (Some execution))
   = Err (AnsibleConfigError (env_vars_error_msg "Job")))
  /\ (env_ok (job_environment_vars job) = true ->
      exec_environment_vars execution = Some "" ->
      fst (runner_prep w job (Some execution))
      = Err (AnsibleConfigError (env_vars_error_msg "Execution")))
  /\ (job_environment_vars job = Some ""
      \/ exec_environment_vars execution = Some "" ->
      exists src, fst (runner_prep w job (Some execution))
                  = Err (AnsibleConfigError (env_vars_error_msg src))
                  /\ stopped_at_starting w
                       (snd (runner_prep w job (Some execution))))
  /\ (job_environment_vars job = None ->
      exec_environment_vars execution = None ->
      merge_env_vars job execution = Ok ∅).
Proof.
  assert (Hjob : job_environment_vars job = Some "" ->
                 fst (runner_prep w job (Some execution))
                 = Err (AnsibleConfigError (env_vars_error_msg "Job"))).
  { intros Hj. apply runner_prep_options_err. simpl.
    apply runner_options_merge_err.
    now apply (merge_env_vars_job_bad _ _ ""). }
  assert (Hexec : env_ok (job_environment_vars job) = true ->
                  exec_environment_vars execution = Some "" ->
                  fst (runner_prep w job (Some execution))
                  = Err (AnsibleConfigError (env_vars_error_msg "Execution"))).
  { intros Hj He. apply runner_prep_options_err. simpl.
    apply runner_options_merge_err.
    now apply (merge_env_vars_exec_bad _ _ ""). }
  split; [exact Hjob|]. split; [exact Hexec|]. split.
  - intros Hempty.
    assert (exists src, fst (runner_prep w job (Some execution))
                        = Err (AnsibleConfigError (env_vars_error_msg src)))
      as [src Hsrc].
    { destruct (job_environment_vars job) as [jcsv|] eqn:Hj.
      - destruct (well_formed_csv jcsv) eqn:Hwf.
        + destruct Hempty as [[= ->]|He]; [discriminate Hwf|].
          exists "Execution". apply Hexec; [exact Hwf | exact He].
        + exists "Job". apply runner_prep_options_err. simpl.
          apply runner_options_merge_err.
          now apply (merge_env_vars_job_bad _ _ jcsv).
      - destruct Hempty as [?|He]; [discriminate|].
        exists "Execution". now apply Hexec. }
    exists src. split; [exact Hsrc|].
    eapply runner_prep_error_stopped; [exact Hsrc|discriminate].
  - intros Hj He. unfold merge_env_vars. now rewrite Hj, He.
Qed.

Lemma empty_env_vars_string_is_config_error_witness :
  fst (runner_prep (demo_world []) (with_job_env demo_job (Some ""))
         (Some demo_execution))
  = Err (AnsibleConfigError (env_vars_error_msg "Job"))
  /\ fst (runner_prep (demo_world []) demo_job
            (Some (with_exec_env demo_execution (Some ""))))
     = Err (AnsibleConfigError (env_vars_error_msg "Execution"))
  /\ merge_env_vars (with_job_env demo_job None)
       (with_exec_env demo_execution None) = Ok ∅.
Proof.
  split; [|split].
  - apply (empty_env_vars_string_is_config_error (demo_world [])
             (with_job_env demo_job (Some "")) demo_execution).
    reflexivity.
  - apply (empty_env_vars_string_is_config_error (demo_world [])
             demo_job (with_exec_env demo_execution (Some ""))).
    + reflexivity.
    + reflexivity.
  - apply (empty_env_vars_string_is_config_error (demo_world [])
             (with_job_env demo_job None) (with_exec_env demo_execution None)).
    + reflexivity.
    + reflexivity.
Defined.

(** ** Claims on run preparation *)

Lemma runner_options_fields w job execution opts :
  _runner_options w job execution = Ok opts ->
  project_dir opts = config w "path_play"
  /\ private_data_dir opts = build_path_run w.
Proof.
  unfold _runner_options.
  destruct (merge_env_vars job execution) as [m|e]; simpl; [|discriminate].
  destruct (check_aw_env_var_true w "run_isolate_dir"); simpl; [discriminate|].
  intros [= <-]. split; reflexivity.
Qed.

Lemma check_playbooks_missing w dir playbooks :
  forallb (fun path => negb (stat_fails w (dir +:+ path))) playbooks = true ->
  forallb (fun playbook => is_file w (dir +:+ playbook)) playbooks = false ->
  exists ppf, check_playbooks w dir playbooks = Err (playbook_not_found ppf)
              /\ is_file w ppf = false.
Proof.
  induction playbooks as [|p rest IH]; simpl; [discriminate|].
  destruct (stat_fails w (dir +:+ p)); simpl; [discriminate|].
  destruct (is_file w (dir +:+ p)) eqn:Hp; simpl.
  - exact IH.
  - intros _ _. exists (dir +:+ p). now split.
Qed.

Lemma check_playbooks_present w dir playbooks :
  forallb (fun path => negb (stat_fails w (dir +:+ path))) playbooks = true ->
  forallb (fun playbook => is_file w (dir +:+ playbook)) playbooks = true ->
  check_playbooks w dir playbooks = Ok tt.
Proof.
  induction playbooks as [|p rest IH]; simpl; [reflexivity|].
  destruct (stat_fails w (dir +:+ p)); simpl; [discriminate|].
  destruct (is_file w (dir +:+ p)); simpl; [exact IH|discriminate].
Qed.

Lemma check_inventories_missing w dir inventories :
  forallb (fun path => negb (stat_fails w (dir +:+ path))) inventories
  = true ->
  forallb (fun inventory => path_exists w (dir +:+ inventory)) inventories
  = false ->
  exists pi, check_inventories w dir inventories = Err (inventory_not_found pi)
             /\ path_exists w pi = false.
Proof.
  induction inventories as [|p rest IH]; simpl; [discriminate|].
  destruct (stat_fails w (dir +:+ p)); simpl; [discriminate|].
  destruct (path_exists w (dir +:+ p)) eqn:Hp; simpl.
  - exact IH.
  - intros _ _. exists (dir +:+ p). now split.
Qed.

Lemma paths_readable_split w job :
  paths_readable w job = true ->
  forallb (fun path => negb (stat_fails w (project_root w +:+ path)))
    (PyStr.split comma (job_playbook job)) = true
  /\ forallb (fun path => negb (stat_fails w (project_root w +:+ path)))
       (PyStr.split comma (job_inventory job)) = true.
Proof.
  unfold paths_readable. rewrite forallb_app. apply andb_prop.
Qed.

(** Malformed variables: a configuration error naming the source, in every
    world. *)
Lemma runner_prep_malformed_env_vars w job execution :
  env_ok (job_environment_vars job) = false
  \/ env_ok (exec_environment_vars (the_execution job execution)) = false ->
  exists src,
    (src = "Job" \/ src = "Execution")
    /\ fst (runner_prep w job execution)
       = Err (AnsibleConfigError (env_vars_error_msg src))
    /\ stopped_at_starting w (snd (runner_prep w job execution)).
Proof.
  intros Hbad.
  assert (exists src, (src = "Job" \/ src = "Execution")
                      /\ fst (runner_prep w job execution)
                         = Err (AnsibleConfigError (env_vars_error_msg src)))
    as (src & Hsrc & Herr).
  { destruct (env_ok (job_environment_vars job)) eqn:Hj.
    - destruct Hbad as [?|He]; [discriminate|].
      destruct (exec_environment_vars (the_execution job execution))
        as [ecsv|] eqn:Hecsv; simpl in He; [|discriminate].
      exists "Execution". split; [now right|].
      apply runner_prep_options_err, runner_options_merge_err.
      now apply (merge_env_vars_exec_bad _ _ ecsv).
    - destruct (job_environment_vars job) as [jcsv|] eqn:Hjcsv;
        simpl in Hj; [|discriminate].
      exists "Job". split; [now left|].
      apply runner_prep_options_err, runner_options_merge_err.
      now apply (merge_env_vars_job_bad _ _ jcsv). }
  exists src. repeat split; try assumption;
    apply (runner_prep_error_stopped _ _ _ _ Herr); discriminate.
Qed.

(** A missing playbook or inventory with directory isolation off and
    path tests that answer: a configuration error naming a path that fails
    its check. *)
Lemma runner_prep_missing_path w job execution :
  check_aw_env_var_true w "run_isolate_dir" = false ->
  paths_readable w job = true ->
  env_ok (job_environment_vars job) = true ->
  env_ok (exec_environment_vars (the_execution job execution)) = true ->
  playbooks_present w job && inventories_present w job = false ->
  exists path,
    (fst (runner_prep w job execution) = Err (playbook_not_found path)
     /\ is_file w path = false
     \/ fst (runner_prep w job execution) = Err (inventory_not_found path)
        /\ path_exists w path = false)
    /\ stopped_at_starting w (snd (runner_prep w job execution)).
Proof.
  intros Ht Hread Hj He Hmiss.
  apply paths_readable_split in Hread as [Hrp Hri].
  destruct (merge_env_vars_ok job (the_execution job execution) Hj He)
    as [m Hm].
  destruct (runner_options_returns w job _ m Ht Hm) as [opts Hopts].
  destruct (runner_options_fields _ _ _ _ Hopts) as [Hdir _].
  assert (exists path,
    fst (runner_prep w job execution) = Err (playbook_not_found path)
     /\ is_file w path = false
     \/ fst (runner_prep w job execution) = Err (inventory_not_found path)
        /\ path_exists w path = false) as [path Hpath].
  { unfold runner_prep. fold (the_execution job execution).
    rewrite Hopts. cbn [project_dir with_playbook_inventory].
    rewrite Hdir. fold (project_root w).
    destruct (playbooks_present w job) eqn:Hp; simpl in Hmiss.
    - unfold playbooks_present in Hp.
      rewrite (check_playbooks_present _ _ _ Hrp Hp).
      destruct (check_inventories_missing _ _ _ Hri Hmiss) as (pi & -> & Hpi).
      exists pi. right. now split.
    - destruct (check_playbooks_missing _ _ _ Hrp Hp) as (ppf & -> & Hppf).
      exists ppf. left. now split. }
  exists path. split; [exact Hpath|].
  destruct Hpath as [[Herr _]|[Herr _]];
    apply (runner_prep_error_stopped _ _ _ _ Herr); discriminate.
Qed.

(** With directory isolation on, preparation never gets to the path
    checks: the options builder raises [TypeError] first. *)
Lemma runner_prep_isolate_dir w job execution :
  check_aw_env_var_true w "run_isolate_dir" = true ->
  env_ok (job_environment_vars job) = true ->
  env_ok (exec_environment_vars (the_execution job execution)) = true ->
  fst (runner_prep w job execution) = Err TypeError.
Proof.
  intros Ht Hj He.
  destruct (merge_env_vars_ok job (the_execution job execution) Hj He)
    as [m Hm].
  apply runner_prep_options_err.
  eapply runner_options_isolate_dir; eassumption.
Qed.

(** C4. At a job whose playbook [absent.yml] does not exist under the
    project root, with well-formed variables and the run-isolate-directory
    toggle on, [runner_prep] raises [TypeError], which is not a
    configuration error; the execution stays at "Starting" and no
    directory is made. *)
Theorem runner_prep_missing_playbook_isolate_dir :
  let w := demo_world ["run_isolate_dir"] in
  let job := with_playbook demo_job "absent.yml" in
  playbooks_present w job = false
  /\ fst (runner_prep w job (Some demo_execution)) = Err TypeError
  /\ is_config_error TypeError = false
  /\ stopped_at_starting w (snd (runner_prep w job (Some demo_execution))).
Proof.
  intros w job. split; [reflexivity|]. split.
  - apply runner_prep_isolate_dir; reflexivity.
  - split; [reflexivity|].
    apply (runner_prep_error_stopped _ _ _ TypeError);
      [apply runner_prep_isolate_dir; reflexivity|discriminate].
Qed.

(** C8. With the run-isolate-directory toggle on and variables that
    decode, the options builder returns no descriptor: evaluating
    [path_run / 'play_base'] on a [str] raises [TypeError]. *)
Theorem runner_options_isolate_dir_raises :
  check_aw_env_var_true (demo_world ["run_isolate_dir"]) "run_isolate_dir"
  = true
  /\ _runner_options (demo_world ["run_isolate_dir"]) demo_job demo_execution
     = Err TypeError.
Proof. split; reflexivity. Qed.

(** The process-isolation part of the descriptor, when the builder
    returns. *)
Lemma runner_options_process_isolation w job execution opts :
  check_aw_env_var_true w "run_isolate_process" = true ->
  _runner_options w job execution = Ok opts ->
  process_isolation opts = Some true
  /\ process_isolation_hide_paths opts
     = Some (get_aw_env_var w "run_isolate_process_path_hide")
  /\ process_isolation_show_paths opts
     = Some (get_aw_env_var w "run_isolate_process_path_show")
  /\ process_isolation_ro_paths opts
     = Some (get_aw_env_var w "run_isolate_process_path_ro").
Proof.
  intros Hp. unfold _runner_options.
  destruct (merge_env_vars job execution) as [m|e]; simpl; [|discriminate].
  destruct (check_aw_env_var_true w "run_isolate_dir"); simpl; [discriminate|].
  rewrite Hp. intros [= <-]. repeat split.
Qed.

(** ** Claims on result parsing *)

Lemma stats_item_category result name d :
  stats_item result name = Ok d -> category result name = d.
Proof. unfold category. now intros ->. Qed.

Lemma count_or_zero_ok result name host n :
  count_or_zero result name host = Ok n ->
  exists d, stats_item result name = Ok d
            /\ n = default 0 (PyDict.get (category result name) host).
Proof.
  unfold count_or_zero, category.
  destruct (stats_item result name) as [d|e]; cbn; [|discriminate].
  intros [= <-]. exists d. split; [reflexivity|].
  now destruct (PyDict.get d host).
Qed.

Lemma mem_is_Some d host :
  PyDict.mem d host = true <-> is_Some (PyDict.get d host).
Proof.
  unfold PyDict.mem. destruct (PyDict.get d host) as [n|].
  - split; [eauto | reflexivity].
  - split; [discriminate | intros [? ?]; discriminate].
Qed.

Lemma make_result_host_ok result ref host h :
  make_result_host result ref host = Ok h ->
  host_record_ok result ref host h.
Proof.
  unfold make_result_host.
  destruct (stats_item result "unreachable") as [du|e] eqn:Hu; cbn;
    [|discriminate].
  destruct (count_or_zero result "skipped" host) as [n1|e] eqn:H1; cbn;
    [|discriminate].
  destruct (count_or_zero result "ok" host) as [n2|e] eqn:H2; cbn;
    [|discriminate].
  destruct (count_or_zero result "failures" host) as [n3|e] eqn:H3; cbn;
    [|discriminate].
  destruct (count_or_zero result "ignored" host) as [n4|e] eqn:H4; cbn;
    [|discriminate].
  destruct (count_or_zero result "rescued" host) as [n5|e] eqn:H5; cbn;
    [|discriminate].
  destruct (count_or_zero result "changed" host) as [n6|e] eqn:H6; cbn;
    [|discriminate].
  intros [= <-]. unfold host_record_ok. cbn.
  rewrite (stats_item_category _ _ _ Hu).
  apply count_or_zero_ok in H1 as (_ & _ & ->), H2 as (_ & _ & ->),
    H3 as (_ & _ & ->), H4 as (_ & _ & ->), H5 as (_ & _ & ->),
    H6 as (_ & _ & ->).
  split; [apply mem_is_Some|]. repeat split.
Qed.

(** The loop, when it ends normally, has saved one record per host
    visited, in the order of the visit, and touched nothing else. *)
Lemma save_hosts_ok result ref hosts : forall st st',
  save_hosts result ref hosts st = (Ok tt, st') ->
  (exists records,
     result_hosts st' = (result_hosts st ++ records)%list
     /\ Forall2 (host_record_ok result ref) hosts records)
  /\ results st' = results st
  /\ st_execution st' = st_execution st
  /\ saved_status st' = saved_status st
  /\ fs_ops st' = fs_ops st.
Proof.
  induction hosts as [|host rest IH]; intros st st'; cbn [save_hosts].
  - intros [= <-]. split; [|repeat split].
    exists []. split; [now rewrite app_nil_r|constructor].
  - destruct (make_result_host result ref host) as [h|e] eqn:Hh;
      [|discriminate].
    intros Hrest.
    destruct (IH _ _ Hrest) as ((records & Hrec & Hall) & Hr & He & Hs & Hf).
    split; [|now repeat split].
    exists (h :: records). split.
    + rewrite Hrec. cbn. now rewrite <- app_assoc.
    + constructor; [now apply make_result_host_ok|exact Hall].
Qed.

Lemma has_categories_item result names name :
  has_categories result names = true ->
  In name names ->
  exists d, stats_item result name = Ok d.
Proof.
  unfold has_categories. rewrite forallb_forall. intros Hall Hin.
  specialize (Hall name Hin).
  destruct (stats_item result name) as [d|e]; [eauto|discriminate].
Qed.

(** With every category the function subscripts in [stats], no iteration
    raises. *)
Lemma save_hosts_complete result ref hosts : forall st,
  has_categories result categories_read = true ->
  exists st', save_hosts result ref hosts st = (Ok tt, st').
Proof.
  intros st Hall. revert st.
  assert (Hitem : forall name, In name categories_read ->
                    exists d, stats_item result name = Ok d)
    by (intros name; now apply has_categories_item).
  induction hosts as [|host rest IH]; intros st; cbn [save_hosts]; [eauto|].
  assert (exists h, make_result_host result ref host = Ok h) as [h ->].
  { unfold make_result_host, count_or_zero.
    destruct (Hitem "unreachable") as [d0 ->]; [cbn; tauto|].
    destruct (Hitem "skipped") as [d1 ->]; [cbn; tauto|].
    destruct (Hitem "ok") as [d2 ->]; [cbn; tauto|].
    destruct (Hitem "failures") as [d3 ->]; [cbn; tauto|].
    destruct (Hitem "ignored") as [d4 ->]; [cbn; tauto|].
    destruct (Hitem "rescued") as [d5 ->]; [cbn; tauto|].
    destruct (Hitem "changed") as [d6 ->]; [cbn; tauto|].
    cbn. eauto. }
  apply IH.
Qed.

(** What a parse that returned has done. *)
Lemma parse_run_result_ok w st start result st' :
  parse_run_result w st start result = (Ok tt, st') ->
  let job_result := length (results st) in
  let status := get_choice_key_by_value w
                  (if errored result then "Failed" else "Finished") in
  results st'
  = (results st ++ [{| time_start := start; failed := errored result |}])%list
  /\ (exists records,
        result_hosts st' = (result_hosts st ++ records)%list
        /\ Forall2 (host_record_ok result job_result)
             (processed_hosts result) records)
  /\ exec_result (st_execution st') = Some job_result
  /\ exec_status (st_execution st') = Some status
  /\ saved_status st' = (saved_status st ++ [status])%list
  /\ fs_ops st' = fs_ops st.
Proof.
  unfold parse_run_result. cbn [save_result].
  destruct (stats_item result "processed") as [processed|e] eqn:Hp;
    [|discriminate].
  destruct (save_hosts _ _ _ _) as [[[]|e] st1] eqn:Hs; [|discriminate].
  intros [= <-].
  destruct (save_hosts_ok _ _ _ _ _ Hs) as ((records & Hrec & Hall) & Hr & He
                                            & Hsv & Hf).
  cbn [results result_hosts st_execution saved_status fs_ops] in *.
  unfold processed_hosts. rewrite (stats_item_category _ _ _ Hp).
  destruct (errored result);
    cbn [failed _update_execution_status set_execution_result results
           result_hosts st_execution saved_status fs_ops exec_result
           exec_status set_status set_result];
    rewrite Hr, Hsv, Hf;
    (split; [reflexivity|]); (split; [eauto|]); repeat split.
Qed.

(** With every category the function subscripts in [stats], the parse
    returns, and does what the claim says. *)
Lemma parse_run_result_complete_stats w st start result :
  has_categories result categories_read = true ->
  exists st', parse_run_result w st start result = (Ok tt, st').
Proof.
  intros Hall. unfold parse_run_result. cbn [save_result].
  destruct (has_categories_item result categories_read "processed" Hall)
    as [processed ->]; [cbn; tauto|].
  match goal with
  | |- context [save_hosts result ?ref ?hosts ?st0] =>
      destruct (save_hosts_complete result ref hosts st0 Hall) as [st1 ->]
  end.
  eauto.
Qed.

(** The stats of the runner never have the key the loop subscripts
    first. *)
Lemma runner_stats_unreachable errored event_data :
  stats_item {| errored := errored; stats := runner_stats event_data |}
    "unreachable"
  = Err (match event_data with
         | Some _ => KeyError
         | None => TypeError
         end).
Proof.
  unfold stats_item. cbn [stats]. destruct event_data as [event|];
    [|reflexivity].
  cbn [runner_stats].
  rewrite not_elem_of_list_to_map_1; [reflexivity|].
  rewrite <- list_fmap_compose. cbn.
  rewrite !elem_of_cons, elem_of_nil. intros H.
  repeat (destruct H as [H|H]; [discriminate H|]). exact H.
Qed.

(** A parse whose first processed host cannot be looked up: the result
    row is saved and nothing else is done. *)
Lemma parse_run_result_first_host_raises w st start result host rest e :
  processed_hosts result = host :: rest ->
  stats_item result "unreachable" = Err e ->
  parse_run_result w st start result
  = (Err e,
     snd (save_result st
            {| time_start := start; failed := errored result |})).
Proof.
  intros Hhosts Hu. unfold parse_run_result. cbn [save_result snd].
  unfold processed_hosts, category in Hhosts.
  destruct (stats_item result "processed") as [processed|e'];
    [|discriminate Hhosts].
  rewrite Hhosts. cbn [save_hosts]. unfold make_result_host.
  rewrite Hu. reflexivity.
Qed.

(** C5. At the outcome of a run of [ansible_runner] over one host
    ([h1] processed, three tasks ok, no error), [parse_run_result] saves
    the result row and then raises [KeyError] at
    [result.stats['unreachable']]: the runner's [stats] has the key [dark]
    and no key [unreachable]. No per-host record is saved, the execution's
    result is not set and no terminal status is saved. *)
Theorem parse_run_result_runner_outcome_raises :
  let run := parse_run_result (demo_world []) (init_store demo_execution) 0
               runner_outcome in
  processed_hosts runner_outcome = ["h1"]
  /\ fst run = Err KeyError
  /\ results (snd run) = [{| time_start := 0; failed := false |}]
  /\ result_hosts (snd run) = []
  /\ exec_result (st_execution (snd run)) = None
  /\ saved_status (snd run) = [].
Proof.
  intros run.
  assert (Hhosts : processed_hosts runner_outcome = ["h1"])
    by (vm_compute; reflexivity).
  split; [exact Hhosts|]. subst run.
  rewrite (parse_run_result_first_host_raises _ _ _ _ "h1" [] KeyError Hhosts
             (runner_stats_unreachable false _)).
  repeat split.
Qed.

(** The example of the specification, on a dict that has the key
    [unreachable]: the records come in the order of the "processed" dict,
    [h1] with two failures. *)
Example parse_run_result_h1 :
  let run := parse_run_result (demo_world []) (init_store demo_execution) 0
               demo_outcome in
  fst run = Ok tt
  /\ result_hosts (snd run)
     = [{| unreachable := true; tasks_skipped := 0; tasks_ok := 0;
           tasks_failed := 0; tasks_ignored := 0; tasks_rescued := 0;
           tasks_changed := 0; host_result := 0%nat |};
        {| unreachable := false; tasks_skipped := 0; tasks_ok := 0;
           tasks_failed := 2; tasks_ignored := 0; tasks_rescued := 0;
           tasks_changed := 0; host_result := 0%nat |}]
  /\ exec_status (st_execution (snd run)) = Some 3.
Proof. repeat split. Qed.

(** ** Workers and the manager *)

Section RunFacts.

Variable o : Oracle.

Lemma loop_S fuel wait_sec rs :
  Workload.loop o (S fuel) wait_sec rs
  = let '(signalled, rs) := Workload.state_stop_wait o wait_sec rs in
    if signalled then Workload.Returned rs
    else if Workload.state_stop (Workload.self rs) then Workload.Returned rs
    else match Workload.run_playbook o rs with
         | (Ok _, rs) => Workload.loop o fuel wait_sec rs
         | (Err e, rs) => Workload.Raised e rs
         end.
Proof. reflexivity. Qed.

Lemma run_nested_S fuel depth error rs :
  Workload.run_nested o (S fuel) depth error rs
  = if Workload.once (Workload.self rs)
       && Workload.started (Workload.self rs)
    then Workload.Returned rs
    else if Workload.stopped (Workload.self rs) then Workload.Returned rs
    else match Workload.body o fuel (Workload.enter error rs) with
         | Workload.Returned rs => Workload.Returned rs
         | Workload.Raised _ rs =>
             if (recursion_limit o <=? depth)%nat
             then Workload.Raised RecursionError rs
             else Workload.run_nested o fuel (S depth) true rs
         | Workload.OutOfFuel rs => Workload.OutOfFuel rs
         end.
Proof. reflexivity. Qed.

Lemma run_S fuel error rs :
  Workload.run o (S fuel) error rs
  = if Workload.once (Workload.self rs)
       && Workload.started (Workload.self rs)
    then Workload.Returned rs
    else if Workload.stopped (Workload.self rs) then Workload.Returned rs
    else match Workload.body o fuel (Workload.enter error rs) with
         | Workload.Returned rs => Workload.Returned rs
         | Workload.Raised _ rs =>
             if (recursion_limit o <=? 0)%nat
             then Workload.Raised RecursionError rs
             else Workload.run_nested o fuel 1 true rs
         | Workload.OutOfFuel rs => Workload.OutOfFuel rs
         end.
Proof. reflexivity. Qed.

Lemma interfere_job ph thread :
  Workload.job (Workload.interfere ph thread) = Workload.job thread.
Proof. now destruct ph. Qed.

Lemma interfere_once ph thread :
  Workload.once (Workload.interfere ph thread) = Workload.once thread.
Proof. now destruct ph. Qed.

(** *** Relations that every step of [run] respects *)

Section Invariant.

Variable R : Workload.RunState -> Workload.RunState -> Prop.
Hypothesis R_refl : forall rs, R rs rs.
Hypothesis R_trans : forall a b c, R a b -> R b c -> R a c.
Hypothesis R_act : forall rs a, R rs (Workload.act rs a).
Hypothesis R_blocked : forall rs, R rs (Workload.blocked o rs).
Hypothesis R_self : forall rs thread,
  Workload.job thread = Workload.job (Workload.self rs) ->
  Workload.once thread = Workload.once (Workload.self rs) ->
  R rs (Workload.with_self rs thread).

Lemma run_playbook_R rs : R rs (snd (Workload.run_playbook o rs)).
Proof.
  unfold Workload.run_playbook. cbn [snd].
  eapply R_trans; [apply R_act | apply R_blocked].
Qed.

Lemma state_stop_wait_R wait_sec rs :
  R rs (snd (Workload.state_stop_wait o wait_sec rs)).
Proof.
  unfold Workload.state_stop_wait.
  destruct (Workload.state_stop _); cbn [snd].
  - apply R_act.
  - eapply R_trans; [apply R_act | apply R_blocked].
Qed.

Lemma enter_R error rs : R rs (Workload.enter error rs).
Proof.
  unfold Workload.enter.
  eapply R_trans; [|apply R_self; reflexivity].
  destruct error; [apply R_act | apply R_refl].
Qed.

Lemma loop_R fuel wait_sec : forall rs,
  R rs (Workload.final (Workload.loop o fuel wait_sec rs)).
Proof.
  induction fuel as [|fuel IH]; intros rs; [apply R_refl|].
  rewrite loop_S.
  pose proof (state_stop_wait_R wait_sec rs) as Hw.
  destruct (Workload.state_stop_wait o wait_sec rs) as [signalled rs1].
  cbn [snd] in Hw.
  destruct signalled; [exact Hw|].
  destruct (Workload.state_stop (Workload.self rs1)); [exact Hw|].
  pose proof (run_playbook_R rs1) as Hp.
  destruct (Workload.run_playbook o rs1) as [[u|e] rs2]; cbn [snd] in Hp.
  - eapply R_trans; [exact Hw|].
    eapply R_trans; [exact Hp|]. apply IH.
  - eapply R_trans; eassumption.
Qed.

Lemma body_R fuel rs : R rs (Workload.final (Workload.body o fuel rs)).
Proof.
  unfold Workload.body.
  destruct (Workload.once (Workload.self rs)).
  - pose proof (run_playbook_R rs) as Hp.
    destruct (Workload.run_playbook o rs) as [[u|e] rs1]; cbn [snd] in Hp;
      [|exact Hp].
    cbn. eapply R_trans; [exact Hp|]. apply R_self; reflexivity.
  - destruct (get_next_cron_execution_sec o _) as [wait_sec|e];
      [|apply R_refl].
    destruct (get_next_cron_execution_str o _ _) as [s|e];
      [|apply R_refl].
    eapply R_trans; [|apply loop_R]. apply R_self; reflexivity.
Qed.

Lemma run_nested_R fuel : forall depth error rs,
  R rs (Workload.final (Workload.run_nested o fuel depth error rs)).
Proof.
  induction fuel as [|fuel IH]; intros depth error rs; [apply R_refl|].
  rewrite run_nested_S.
  destruct (_ && _); [apply R_refl|].
  destruct (Workload.stopped _); [apply R_refl|].
  pose proof (enter_R error rs) as He.
  pose proof (body_R fuel (Workload.enter error rs)) as Hb.
  destruct (Workload.body o fuel _) as [rs2|e rs2|rs2];
    cbn [Workload.final] in *.
  - eapply R_trans; eassumption.
  - eapply R_trans; [exact He|].
    eapply R_trans; [exact Hb|].
    destruct (recursion_limit o <=? depth)%nat; [apply R_refl|apply IH].
  - eapply R_trans; eassumption.
Qed.

Lemma run_R fuel error rs :
  R rs (Workload.final (Workload.run o fuel error rs)).
Proof. apply run_nested_R. Qed.

End Invariant.

Lemma run_nested_frame fuel depth error rs :
  same_frame rs (Workload.final (Workload.run_nested o fuel depth error rs)).
Proof.
  apply run_nested_R; unfold same_frame.
  - now repeat split.
  - intros a b c (?&?&?) (?&?&?). repeat split; congruence.
  - now repeat split.
  - intros rs0. cbn. rewrite interfere_job, interfere_once. now repeat split.
  - intros rs0 thread Hj Ho. now repeat split.
Qed.

Lemma run_frame fuel error rs :
  same_frame rs (Workload.final (Workload.run o fuel error rs)).
Proof. apply run_nested_frame. Qed.

Lemma body_frame fuel rs :
  same_frame rs (Workload.final (Workload.body o fuel rs)).
Proof.
  apply body_R; unfold same_frame.
  - now repeat split.
  - intros a b c (?&?&?) (?&?&?). repeat split; congruence.
  - now repeat split.
  - intros rs0. cbn. rewrite interfere_job, interfere_once. now repeat split.
  - intros rs0 thread Hj Ho. now repeat split.
Qed.

(** No call of [run] changes the manager's set. *)
Lemma run_keeps_threads fuel error rs :
  Workload.threads (Workload.final (Workload.run o fuel error rs))
  = Workload.threads rs.
Proof. apply run_frame. Qed.

Lemma trace_extends_trans a b c :
  trace_extends a b -> trace_extends b c -> trace_extends a c.
Proof.
  intros [l1 H1] [l2 H2]. exists (l1 ++ l2)%list.
  rewrite H2, H1. now rewrite app_assoc.
Qed.

Lemma trace_extends_refl rs : trace_extends rs rs.
Proof. exists []. now rewrite app_nil_r. Qed.


Lemma run_nested_trace fuel depth error rs :
  trace_extends rs
    (Workload.final (Workload.run_nested o fuel depth error rs)).
Proof.
  apply run_nested_R.
  - apply trace_extends_refl.
  - apply trace_extends_trans.
  - intros rs0 a. now exists [a].
  - intros rs0. exists []. cbn. now rewrite app_nil_r.
  - intros rs0 thread _ _. exists []. cbn. now rewrite app_nil_r.
Qed.

Lemma run_trace fuel error rs :
  trace_extends rs (Workload.final (Workload.run o fuel error rs)).
Proof. apply run_nested_trace. Qed.


(** While the stack has room for every retry the fuel allows, no error
    leaves [run]. *)
Lemma run_nested_no_raise fuel : forall depth error rs e rs',
  (depth + fuel <= recursion_limit o)%nat ->
  Workload.run_nested o fuel depth error rs <> Workload.Raised e rs'.
Proof.
  induction fuel as [|fuel IH]; intros depth error rs e rs' Hroom;
    [discriminate|].
  rewrite run_nested_S.
  destruct (_ && _); [discriminate|].
  destruct (Workload.stopped _); [discriminate|].
  destruct (Workload.body _ _ _); [discriminate| |discriminate].
  destruct (Nat.leb_spec (recursion_limit o) depth) as [Hle|Hlt].
  - lia.
  - apply IH. lia.
Qed.

Lemma wait_signalled wait_sec rs :
  fst (Workload.state_stop_wait o wait_sec rs)
  = Workload.state_stop
      (Workload.self (snd (Workload.state_stop_wait o wait_sec rs))).
Proof.
  unfold Workload.state_stop_wait. cbn.
  destruct (Workload.state_stop (Workload.self rs)) eqn:H; cbn; congruence.
Qed.

(** The loop is left normally only with the event set. *)
Lemma loop_returned fuel wait_sec : forall rs rs',
  Workload.loop o fuel wait_sec rs = Workload.Returned rs' ->
  Workload.state_stop (Workload.self rs') = true.
Proof.
  induction fuel as [|fuel IH]; intros rs rs'; [discriminate|].
  rewrite loop_S.
  pose proof (wait_signalled wait_sec rs) as Hw.
  destruct (Workload.state_stop_wait o wait_sec rs) as [signalled rs1].
  cbn [fst snd] in Hw.
  destruct signalled; [intros [= <-]; congruence|].
  destruct (Workload.state_stop (Workload.self rs1)); [discriminate|].
  destruct (Workload.run_playbook o rs1) as [[u|e] rs2];
    [apply IH|discriminate].
Qed.

(** A recurring worker returns from [run] only stopped or signalled. *)
Lemma run_nested_returned fuel : forall depth error rs rs',
  Workload.once (Workload.self rs) = false ->
  Workload.run_nested o fuel depth error rs = Workload.Returned rs' ->
  Workload.state_stop (Workload.self rs') = true
  \/ Workload.stopped (Workload.self rs') = true.
Proof.
  induction fuel as [|fuel IH]; intros depth error rs rs' Honce;
    [discriminate|].
  rewrite run_nested_S, Honce. cbn [andb].
  destruct (Workload.stopped (Workload.self rs)) eqn:Hs;
    [intros [= <-]; now right|].
  pose proof (body_frame fuel (Workload.enter error rs)) as (_ & _ & Ho).
  destruct (Workload.body o fuel (Workload.enter error rs))
    as [rs2|e rs2|rs2] eqn:Hb; cbn [Workload.final] in Ho.
  - intros [= <-]. left.
    unfold Workload.body in Hb.
    replace (Workload.once (Workload.self (Workload.enter error rs)))
      with false in Hb by (destruct error; cbn; congruence).
    destruct (get_next_cron_execution_sec o _); [|discriminate].
    destruct (get_next_cron_execution_str o _ _); [|discriminate].
    eapply loop_returned. exact Hb.
  - destruct (recursion_limit o <=? depth)%nat; [discriminate|].
    apply IH. rewrite Ho. destruct error; cbn; congruence.
  - discriminate.
Qed.

Lemma recurring_run_returned fuel error rs rs' :
  Workload.once (Workload.self rs) = false ->
  Workload.run o fuel error rs = Workload.Returned rs' ->
  Workload.state_stop (Workload.self rs') = true
  \/ Workload.stopped (Workload.self rs') = true.
Proof. apply run_nested_returned. Qed.

End RunFacts.

(** ** Claims on one-shot workers and on stopping *)

(** The last statement of the one-shot branch never succeeds: a [Job] is
    no element of a set of workers. *)
Lemma remove_job_raises job s : PySet.remove (ObjJob job) s = Err KeyError.
Proof. reflexivity. Qed.

(** C2. At a manager holding one one-shot worker for [demo_job], with
    a playbook run that succeeds, [run] runs the playbook once, signals
    self-stop and returns, and the manager's set still holds the worker:
    [self.manager.threads.remove(self.job)] raises [KeyError], which the
    handler of [run] swallows. *)
Theorem once_worker_stays_registered :
  let m := ThreadManager.add_thread ThreadManager.init demo_job None true in
  exists rs m',
    ThreadManager.run_thread calm_oracle 2 1%nat m
    = Some (Workload.Returned rs, m')
    /\ Workload.trace rs = [ARunPlaybook demo_job None]
    /\ Workload.state_stop (Workload.self rs) = true
    /\ Workload.stopped (Workload.self rs) = true
    /\ ThreadManager.threads m' = [1%nat]
    /\ ThreadManager.list m' = [demo_job].
Proof.
  intros m. eexists. eexists. split; [vm_compute; reflexivity|].
  repeat split.
Qed.

(** [ThreadManager.stop] leaves every worker object as it was. *)
Lemma manager_stop_keeps_heap m :
  ThreadManager.heap (snd (ThreadManager.stop m)) = ThreadManager.heap m.
Proof.
  unfold ThreadManager.stop.
  destruct (ThreadManager.stopping m); [reflexivity|].
  cbn [ThreadManager.threads].
  destruct (ThreadManager.remove_all _ _); reflexivity.
Qed.

Lemma mem_elem_of r s : PySet.mem r s = true <-> r ∈ s.
Proof.
  unfold PySet.mem. rewrite existsb_exists, list_elem_of_In. split.
  - intros (x & Hin & Heq). apply Nat.eqb_eq in Heq. now subst.
  - intros Hin. exists r. split; [exact Hin|apply Nat.eqb_refl].
Qed.

Lemma elem_of_discard r r' s :
  r' ∈ PySet.discard r s <-> r' ∈ s /\ r' <> r.
Proof.
  unfold PySet.discard. rewrite !list_elem_of_In, filter_In.
  rewrite negb_true_iff, Nat.eqb_neq. intuition congruence.
Qed.

Lemma remove_all_spec thread_list : forall s,
  NoDup thread_list ->
  (forall r, r ∈ thread_list -> r ∈ s) ->
  exists s', ThreadManager.remove_all thread_list s = Ok s'
             /\ forall r, r ∈ s' <-> r ∈ s /\ r ∉ thread_list.
Proof.
  induction thread_list as [|x rest IH]; intros s Hnd Hsub; simpl.
  - exists s. split; [reflexivity|]. intros r. rewrite elem_of_nil. tauto.
  - apply NoDup_cons in Hnd as [Hx Hnd].
    assert (Hmem : PySet.mem x s = true)
      by (apply mem_elem_of, Hsub; left).
    rewrite Hmem. simpl.
    destruct (IH (PySet.discard x s) Hnd) as (s' & Hs' & Hin).
    { intros r Hr. apply elem_of_discard. split.
      - apply Hsub. now right.
      - intros ->. contradiction. }
    exists s'. split; [exact Hs'|].
    intros r. rewrite Hin, elem_of_discard, elem_of_cons. tauto.
Qed.

(** What [ThreadManager.stop] does do on a first call: it returns [True]
    and empties the set. *)
Lemma manager_stop_first_call m :
  ThreadManager.stopping m = false ->
  NoDup (ThreadManager.threads m) ->
  exists m', ThreadManager.stop m = (Ok true, m')
             /\ ThreadManager.threads m' = []
             /\ ThreadManager.stopping m' = true
             /\ ThreadManager.heap m' = ThreadManager.heap m.
Proof.
  intros Hs Hnd. unfold ThreadManager.stop. rewrite Hs.
  cbn [ThreadManager.threads].
  destruct (remove_all_spec _ (ThreadManager.threads m) Hnd (fun _ H => H))
    as (s' & -> & Hin).
  eexists. split; [reflexivity|]. repeat split.
  cbn. destruct s' as [|r s']; [reflexivity|].
  exfalso. destruct (Hin r) as [H _].
  destruct H as [H1 H2]; [left|]. contradiction.
Qed.

(** C3. At a manager whose one worker is running its loop, a first
    [stop()] returns [True] and empties the set, but raises no stop
    signal: the worker is left started, with its event unset and its
    [stopped] flag unset. *)
Theorem manager_stop_raises_no_signal :
  exists m' thread,
    ThreadManager.threads running_manager = [1%nat]
    /\ ThreadManager.stop running_manager = (Ok true, m')
    /\ ThreadManager.threads m' = []
    /\ ThreadManager.heap m' !! 1%nat = Some thread
    /\ Workload.started thread = true
    /\ Workload.state_stop thread = false
    /\ Workload.stopped thread = false.
Proof.
  eexists. eexists. split; [reflexivity|].
  split; [vm_compute; reflexivity|].
  split; [reflexivity|].
  split; [vm_compute; reflexivity|].
  repeat split.
Qed.

(** [stop_thread], the sibling to compare with, does signal the worker it
    removes. *)
Example stop_thread_signals :
  exists thread,
    ThreadManager.heap (ThreadManager.stop_thread running_manager demo_job)
      !! 1%nat = Some thread
    /\ Workload.state_stop thread = true
    /\ Workload.stopped thread = true
    /\ ThreadManager.threads
         (ThreadManager.stop_thread running_manager demo_job) = [].
Proof.
  eexists. split; [vm_compute; reflexivity|]. repeat split.
Qed.

(** C7, as stated, fails: stopping a worker that is already stopped
    returns [True]. *)
Lemma stop_stopped_worker_returns_true :
  Workload.stopped stopped_worker = true
  /\ fst (Workload.stop stopped_worker) <> false.
Proof. split; [reflexivity|discriminate]. Qed.

(** C7, amended. [stop] on a worker that [stop] has already stopped
    (event set, not started, stopped) leaves the worker as it is and
    returns [True]; [stop] on a manager that is already stopping returns
    [False] and leaves the manager and its workers as they are. *)
Theorem stop_again_changes_nothing
  (thread : Workload.t) (m : ThreadManager.t) :
  Workload.stopped thread = true ->
  Workload.started thread = false ->
  Workload.state_stop thread = true ->
  ThreadManager.stopping m = true ->
  Workload.stop thread = (true, thread)
  /\ ThreadManager.stop m = (Ok false, m).
Proof.
  intros Hstopped Hstarted Hevent Hstopping. split.
  - unfold Workload.stop, Workload.set_flags.
    destruct thread; simpl in *; subst; reflexivity.
  - unfold ThreadManager.stop. now rewrite Hstopping.
Qed.

Lemma stop_again_changes_nothing_witness :
  Workload.stop stopped_worker = (true, stopped_worker)
  /\ ThreadManager.stop (snd (ThreadManager.stop running_manager))
     = (Ok false, snd (ThreadManager.stop running_manager)).
Proof.
  apply (stop_again_changes_nothing stopped_worker
           (snd (ThreadManager.stop running_manager)));
    reflexivity.
Defined.

(** ** Claims on failure handling *)

Section Retry.

Variable o : Oracle.





End Retry.




(** A recurring worker whose schedule can never be evaluated: every call
    of [run] raises in its [try] block, and when the nest of retries has
    used up the stack, after a thousand backoffs, [RecursionError] leaves
    [run]. *)
Example broken_cron_recursion_error :
  exists rs',
    Workload.run broken_cron_oracle 1001 false recurring_worker
    = Workload.Raised RecursionError rs'
    /\ Workload.trace rs' = repeat (ASleep Workload.FAIL_SLEEP) 1000
    /\ Workload.state_stop (Workload.self rs') = false
    /\ Workload.stopped (Workload.self rs') = false.
Proof.
  eexists. split; [vm_compute; reflexivity|].
  split; [vm_compute; reflexivity|]. split; reflexivity.
Qed.

(** ** Claims on the active set *)

Section ActiveSet.

Implicit Types (m : ThreadManager.t) (job : Job) (r : ref).

Lemma job_eqb_workers m job job' :
  job_eqb job job' = true -> workers_of m job = workers_of m job'.
Proof.
  intros H. apply Z.eqb_eq in H. unfold workers_of.
  apply List.filter_ext. intros r. unfold is_worker_of, job_eqb.
  destruct (ThreadManager.heap m !! r); [|reflexivity]. now rewrite H.
Qed.

Lemma first_thread_Some h test s r thread :
  ThreadManager.first_thread h test s = Some (r, thread) ->
  In r s /\ h !! r = Some thread /\ test thread = true.
Proof.
  induction s as [|x s IH]; simpl; [discriminate|].
  destruct (h !! x) as [t|] eqn:Hx.
  - destruct (test t) eqn:Ht.
    + intros [= <- <-]. auto.
    + intros H. destruct (IH H) as (?&?&?). auto.
  - intros H. destruct (IH H) as (?&?&?). auto.
Qed.

Lemma first_thread_None h test s :
  ThreadManager.first_thread h test s = None ->
  forall r thread, In r s -> h !! r = Some thread -> test thread = false.
Proof.
  induction s as [|x s IH]; simpl; [intros _ r t []|].
  destruct (h !! x) as [t|] eqn:Hx.
  - destruct (test t) eqn:Ht; [discriminate|].
    intros H r t' [<-|Hin] Hr; [congruence|eauto].
  - intros H r t' [<-|Hin] Hr; [congruence|eauto].
Qed.

Lemma filter_discard (f : ref -> bool) r s :
  List.filter f (PySet.discard r s) = PySet.discard r (List.filter f s).
Proof.
  unfold PySet.discard. induction s as [|x s IH]; simpl; [reflexivity|].
  destruct (negb (r =? x)%nat) eqn:Hx, (f x) eqn:Hf; simpl;
    rewrite ?Hx, ?Hf, IH; reflexivity.
Qed.

Lemma discard_length_le r s :
  (length (PySet.discard r s) <= length s)%nat.
Proof. apply List.filter_length_le. Qed.

Lemma is_worker_of_with_thread m r thread thread' job r' :
  ThreadManager.heap m !! r = Some thread ->
  Workload.job thread' = Workload.job thread ->
  is_worker_of (ThreadManager.with_thread m r thread') job r'
  = is_worker_of m job r'.
Proof.
  intros Hr Hjob. unfold is_worker_of. cbn [ThreadManager.heap
                                              ThreadManager.with_thread].
  destruct (decide (r = r')) as [<-|Hne].
  - now rewrite lookup_insert_eq, Hr, Hjob.
  - now rewrite lookup_insert_ne.
Qed.

Lemma workers_of_with_thread m r thread thread' job :
  ThreadManager.heap m !! r = Some thread ->
  Workload.job thread' = Workload.job thread ->
  workers_of (ThreadManager.with_thread m r thread') job
  = workers_of m job.
Proof.
  intros Hr Hjob. unfold workers_of. apply List.filter_ext.
  intros r'. eapply is_worker_of_with_thread; eassumption.
Qed.

(** *** [stop_thread] *)

Lemma stop_thread_cases m job :
  ThreadManager.stop_thread m job = m
  /\ ThreadManager.first_thread (ThreadManager.heap m)
       (fun thread => job_eqb (Workload.job thread) job
                      && Workload.started thread)
       (ThreadManager.threads m) = None
  \/ exists r thread,
       In r (workers_of m job)
       /\ ThreadManager.heap m !! r = Some thread
       /\ Workload.started thread = true
       /\ ThreadManager.thread_nr (ThreadManager.stop_thread m job)
          = ThreadManager.thread_nr m
       /\ ThreadManager.threads (ThreadManager.stop_thread m job)
          = PySet.discard r (ThreadManager.threads m)
       /\ forall job', workers_of (ThreadManager.stop_thread m job) job'
                       = PySet.discard r (workers_of m job').
Proof.
  unfold ThreadManager.stop_thread.
  destruct (ThreadManager.first_thread _ _ _) as [[r thread]|] eqn:Hf.
  - right. exists r, thread.
    apply first_thread_Some in Hf as (Hin & Hr & Ht).
    apply andb_prop in Ht as [Hjob Hstarted].
    split.
    { unfold workers_of. apply List.filter_In. split; [exact Hin|].
      unfold is_worker_of. now rewrite Hr. }
    split; [exact Hr|]. split; [exact Hstarted|].
    split; [reflexivity|]. split; [reflexivity|].
    intros job'. unfold workers_of. rewrite <- filter_discard.
    cbn [ThreadManager.threads ThreadManager.with_threads
           ThreadManager.with_thread].
    apply List.filter_ext. intros r'.
    apply (is_worker_of_with_thread m r thread); [exact Hr|reflexivity].
  - left. split; reflexivity.
Qed.

Lemma stop_thread_le m job job' :
  (length (workers_of (ThreadManager.stop_thread m job) job')
   <= length (workers_of m job'))%nat.
Proof.
  destruct (stop_thread_cases m job)
    as [[-> _]|(r & thread & _ & _ & _ & _ & _ & Hw)]; [lia|].
  rewrite Hw. apply discard_length_le.
Qed.

Lemma stop_thread_well_formed m job :
  well_formed m -> well_formed (ThreadManager.stop_thread m job).
Proof.
  intros Hwf.
  destruct (stop_thread_cases m job)
    as [[-> _]|(r & thread & _ & _ & _ & Hnr & Hth & _)]; [exact Hwf|].
  intros r' Hin. rewrite Hnr. rewrite Hth in Hin.
  apply List.filter_In in Hin as [Hin _]. now apply Hwf.
Qed.

Lemma stop_thread_thread_nr m job :
  ThreadManager.thread_nr (ThreadManager.stop_thread m job)
  = ThreadManager.thread_nr m.
Proof.
  destruct (stop_thread_cases m job)
    as [[-> _]|(r & thread & _ & _ & _ & Hnr & _)]; [reflexivity|exact Hnr].
Qed.

(** When the workers of [job] are at most one and have started,
    [stop_thread(job)] leaves none. *)
Lemma stop_thread_clears m job :
  (length (workers_of m job) <= 1)%nat ->
  forallb (has_started m) (workers_of m job) = true ->
  workers_of (ThreadManager.stop_thread m job) job = [].
Proof.
  intros Hone Hstarted.
  destruct (stop_thread_cases m job)
    as [[-> Hnone]|(r & thread & Hin & _ & _ & _ & _ & Hw)].
  - destruct (workers_of m job) as [|r rest] eqn:Hws; [reflexivity|].
    exfalso.
    assert (Hr : In r (workers_of m job)) by (rewrite Hws; now left).
    unfold workers_of in Hr. apply List.filter_In in Hr as [Hin Hjob].
    simpl in Hstarted. apply andb_prop in Hstarted as [Hs _].
    unfold is_worker_of in Hjob. unfold has_started in Hs.
    destruct (ThreadManager.heap m !! r) as [thread|] eqn:Hr;
      [|discriminate].
    pose proof (first_thread_None _ _ _ Hnone r thread Hin Hr) as Hfalse.
    cbn beta in Hfalse. rewrite Hjob, Hs in Hfalse. discriminate.
  - rewrite Hw.
    destruct (workers_of m job) as [|r0 [|r1 rest]]; simpl in *;
      [contradiction| |lia].
    destruct Hin as [->|[]]. now rewrite Nat.eqb_refl.
Qed.

(** *** [add_thread] *)

Lemma add_thread_threads m job execution once :
  well_formed m ->
  ThreadManager.threads (ThreadManager.add_thread m job execution once)
  = (ThreadManager.threads m ++ [S (ThreadManager.thread_nr m)])%list.
Proof.
  intros Hwf. cbn [ThreadManager.add_thread ThreadManager.threads].
  unfold PySet.add.
  destruct (PySet.mem _ _) eqn:Hmem; [|reflexivity].
  apply mem_elem_of, list_elem_of_In, Hwf in Hmem. lia.
Qed.

Lemma add_thread_workers m job execution once job' :
  well_formed m ->
  workers_of (ThreadManager.add_thread m job execution once) job'
  = (workers_of m job'
     ++ if job_eqb job job' then [S (ThreadManager.thread_nr m)] else [])%list.
Proof.
  intros Hwf. unfold workers_of.
  rewrite add_thread_threads by exact Hwf.
  rewrite List.filter_app. f_equal.
  - apply List.filter_ext_in. intros r Hin.
    unfold is_worker_of. cbn [ThreadManager.add_thread ThreadManager.heap].
    rewrite lookup_insert_ne; [reflexivity|].
    apply Hwf in Hin. lia.
  - cbn [List.filter]. unfold is_worker_of at 1.
    cbn [ThreadManager.add_thread ThreadManager.heap].
    rewrite lookup_insert_eq. cbn [Workload.init Workload.job].
    now destruct (job_eqb job job').
Qed.

Lemma add_thread_well_formed m job execution once :
  well_formed m ->
  well_formed (ThreadManager.add_thread m job execution once).
Proof.
  intros Hwf r. rewrite add_thread_threads by exact Hwf.
  cbn [ThreadManager.add_thread ThreadManager.thread_nr].
  rewrite in_app_iff. intros [Hin|[<-|[]]]; [|lia].
  apply Hwf in Hin. lia.
Qed.

(** *** [start_thread] and the worker's own thread *)

Lemma start_thread_cases m job :
  snd (ThreadManager.start_thread m job) = m
  \/ exists r thread thread',
       ThreadManager.heap m !! r = Some thread
       /\ Workload.job thread' = Workload.job thread
       /\ snd (ThreadManager.start_thread m job)
          = ThreadManager.with_thread m r thread'.
Proof.
  unfold ThreadManager.start_thread.
  destruct (ThreadManager.first_thread _ _ _) as [[r thread]|] eqn:Hf;
    [|now left].
  apply first_thread_Some in Hf as (_ & Hr & _).
  unfold Workload.start. destruct (Workload.spawned thread); [now left|].
  right. exists r, thread, (Workload.set_spawned thread). now repeat split.
Qed.

Lemma run_thread_cases o fuel r m :
  match ThreadManager.run_thread o fuel r m with
  | None => True
  | Some (_, m') =>
      exists thread thread',
        ThreadManager.heap m !! r = Some thread
        /\ Workload.job thread' = Workload.job thread
        /\ m' = ThreadManager.with_thread m r thread'
  end.
Proof.
  unfold ThreadManager.run_thread.
  destruct (ThreadManager.heap m !! r) as [thread|] eqn:Hr; [|exact I].
  match goal with
  | |- context [Workload.run o fuel false ?rs] =>
      destruct (run_frame o fuel false rs) as (Hth & Hjob & _);
      set (out := Workload.run o fuel false rs) in *
  end.
  exists thread, (Workload.self (Workload.final out)).
  split; [reflexivity|]. split; [exact Hjob|].
  rewrite Hth. cbn [Workload.threads].
  unfold ThreadManager.with_threads, ThreadManager.with_thread.
  reflexivity.
Qed.

(** A change of one worker object that keeps its job changes neither
    the workers of any job nor well-formedness. *)
Lemma with_thread_keeps m r thread thread' :
  ThreadManager.heap m !! r = Some thread ->
  Workload.job thread' = Workload.job thread ->
  (well_formed m -> well_formed (ThreadManager.with_thread m r thread'))
  /\ forall job, workers_of (ThreadManager.with_thread m r thread') job
                 = workers_of m job.
Proof.
  intros Hr Hjob. split; [exact (fun H => H)|].
  intros job. eapply workers_of_with_thread; eassumption.
Qed.

End ActiveSet.

Section OneWorkerPerJob.

Implicit Types (m : ThreadManager.t) (job : Job) (ops : list Op).

Lemma replace_thread_workers m job :
  well_formed m ->
  one_worker_per_job m ->
  admissible m (ReplaceThread job) = true ->
  let m' := step m (ReplaceThread job) in
  well_formed m'
  /\ one_worker_per_job m'
  /\ length (workers_of m' job) = 1%nat.
Proof.
  intros Hwf Hone Hadm. cbn [admissible] in Hadm.
  cbn [step]. unfold ThreadManager.replace_thread.
  set (m1 := ThreadManager.stop_thread m job).
  set (m2 := ThreadManager.add_thread m1 job None false).
  assert (Hwf1 : well_formed m1) by now apply stop_thread_well_formed.
  assert (Hclear : workers_of m1 job = [])
    by (apply stop_thread_clears; [apply Hone | exact Hadm]).
  assert (Hwf2 : well_formed m2) by now apply add_thread_well_formed.
  assert (Hw2 : forall job', (length (workers_of m2 job') <= 1)%nat).
  { intros job'. unfold m2. rewrite add_thread_workers by exact Hwf1.
    rewrite length_app.
    destruct (job_eqb job job') eqn:Heq.
    - rewrite <- (job_eqb_workers m1 job job' Heq), Hclear. simpl. lia.
    - pose proof (stop_thread_le m job job'). pose proof (Hone job').
      fold m1 in H. simpl. lia. }
  assert (Hj2 : length (workers_of m2 job) = 1%nat).
  { unfold m2. rewrite add_thread_workers by exact Hwf1.
    rewrite Hclear. unfold job_eqb. now rewrite Z.eqb_refl. }
  destruct (start_thread_cases m2 job)
    as [->|(r & thread & thread' & Hr & Hjob & ->)].
  - now repeat split.
  - destruct (with_thread_keeps m2 r thread thread' Hr Hjob) as [Hk Hw].
    split; [now apply Hk|]. split.
    + intros job'. rewrite Hw. apply Hw2.
    + now rewrite Hw.
Qed.

Lemma step_preserves m op :
  well_formed m ->
  one_worker_per_job m ->
  admissible m op = true ->
  well_formed (step m op) /\ one_worker_per_job (step m op).
Proof.
  intros Hwf Hone Hadm. destruct op as [job e once|job|job|job|o fuel r].
  - cbn [step]. split; [now apply add_thread_well_formed|].
    intros job'. rewrite add_thread_workers by exact Hwf.
    rewrite length_app. cbn [admissible] in Hadm.
    apply Nat.eqb_eq in Hadm.
    destruct (job_eqb job job') eqn:Heq.
    + rewrite <- (job_eqb_workers m job job' Heq), Hadm. simpl. lia.
    + pose proof (Hone job'). simpl. lia.
  - destruct (replace_thread_workers m job Hwf Hone Hadm) as (?&?&?).
    now split.
  - cbn [step]. split; [now apply stop_thread_well_formed|].
    intros job'. pose proof (stop_thread_le m job job').
    pose proof (Hone job'). lia.
  - cbn [step]. destruct (start_thread_cases m job)
      as [->|(r & thread & thread' & Hr & Hjob & ->)]; [now split|].
    destruct (with_thread_keeps m r thread thread' Hr Hjob) as [Hk Hw].
    split; [now apply Hk|]. intros job'. rewrite Hw. apply Hone.
  - cbn [step]. pose proof (run_thread_cases o fuel r m) as Hrun.
    destruct (ThreadManager.run_thread o fuel r m) as [[out m']|];
      [|now split].
    destruct Hrun as (thread & thread' & Hr & Hjob & ->).
    destruct (with_thread_keeps m r thread thread' Hr Hjob) as [Hk Hw].
    split; [now apply Hk|]. intros job'. rewrite Hw. apply Hone.
Qed.

Lemma run_ops_preserves ops : forall m,
  well_formed m ->
  one_worker_per_job m ->
  admissible_ops m ops = true ->
  well_formed (run_ops m ops) /\ one_worker_per_job (run_ops m ops).
Proof.
  induction ops as [|op ops IH]; intros m Hwf Hone Hadm; [now split|].
  cbn [admissible_ops] in Hadm. apply andb_prop in Hadm as [Hop Hrest].
  destruct (step_preserves m op Hwf Hone Hop) as [Hwf' Hone'].
  unfold run_ops. cbn [fold_left]. now apply IH.
Qed.

Lemma init_well_formed : well_formed ThreadManager.init.
Proof. intros r []. Qed.

Lemma init_one_worker_per_job : one_worker_per_job ThreadManager.init.
Proof. intros job. cbn. lia. Qed.

End OneWorkerPerJob.

(** C1, as stated, fails: after [add_thread(job)] and
    [replace_thread(job)] the set holds two workers for the job, because
    [stop_thread] leaves a worker that has not started and [add_thread]
    adds without looking. *)
Lemma replace_thread_leaves_two_workers :
  ThreadManager.threads doubled_manager = [1%nat; 2%nat]
  /\ ThreadManager.list doubled_manager = [demo_job; demo_job]
  /\ workers_of doubled_manager demo_job = [1%nat; 2%nat]
  /\ ~ one_worker_per_job doubled_manager.
Proof.
  assert (H : workers_of doubled_manager demo_job = [1%nat; 2%nat])
    by (vm_compute; reflexivity).
  split; [vm_compute; reflexivity|].
  split; [vm_compute; reflexivity|].
  split; [exact H|].
  intros Hone. specialize (Hone demo_job). rewrite H in Hone.
  simpl in Hone. lia.
Qed.

(** C1, amended. Starting from the empty manager, along every sequence
    of [add_thread], [replace_thread], [stop_thread] and [start_thread]
    calls and of steps of the workers' own threads in which
    [add_thread(job)] is called only when no worker is registered for
    [job] and [replace_thread(job)] only when every worker registered for
    [job] has started, no two workers of the active set reference the same
    job; and a [replace_thread(job)] called under that condition leaves
    exactly one worker for [job]. *)
Theorem one_worker_per_job_when_admissible (ops : list Op) :
  admissible_ops ThreadManager.init ops = true ->
  one_worker_per_job (run_ops ThreadManager.init ops)
  /\ forall job,
       admissible (run_ops ThreadManager.init ops) (ReplaceThread job) = true ->
       length (workers_of
                 (step (run_ops ThreadManager.init ops) (ReplaceThread job))
                 job) = 1%nat.
Proof.
  intros Hadm.
  destruct (run_ops_preserves ops ThreadManager.init init_well_formed
              init_one_worker_per_job Hadm) as [Hwf Hone].
  split; [exact Hone|].
  intros job Hrep.
  now destruct (replace_thread_workers _ job Hwf Hone Hrep) as (_ & _ & ?).
Qed.

Lemma one_worker_per_job_when_admissible_witness :
  one_worker_per_job (run_ops ThreadManager.init replace_running)
  /\ length (workers_of
               (step (run_ops ThreadManager.init replace_running)
                  (ReplaceThread demo_job)) demo_job) = 1%nat.
Proof.
  assert (Hadm : admissible_ops ThreadManager.init replace_running = true)
    by (vm_compute; reflexivity).
  destruct (one_worker_per_job_when_admissible replace_running Hadm)
    as [Hone Hrep].
  split; [exact Hone|].
  apply Hrep. vm_compute. reflexivity.
Defined.

(** * Further properties *)

(** ** Decoding of environment variables *)

(** X1. [_decode_env_vars] returns a mapping exactly when every
    comma-separated token has exactly one ['=']; otherwise it raises the
    configuration error naming its source, and it raises nothing else. *)
Theorem decode_env_vars_characterised (csv src : string) :
  (well_formed_csv csv = true <-> exists m, _decode_env_vars csv src = Ok m)
  /\ (well_formed_csv csv = false
      <-> _decode_env_vars csv src
          = Err (AnsibleConfigError (env_vars_error_msg src)))
  /\ forall e, _decode_env_vars csv src = Err e ->
               e = AnsibleConfigError (env_vars_error_msg src).
Proof.
  destruct (well_formed_csv csv) eqn:Hwf.
  - destruct (decode_env_vars_ok csv src Hwf) as [m Hm].
    split; [split; eauto|]. split.
    + split; [discriminate|]. rewrite Hm. discriminate.
    + intros e. rewrite Hm. discriminate.
  - pose proof (decode_env_vars_bad csv src Hwf) as Hbad.
    split; [split; [discriminate|]|].
    + intros [m Hm]. rewrite Hbad in Hm. discriminate.
    + split; [tauto|]. intros e. rewrite Hbad. now intros [= <-].
Qed.

Lemma count_app c a b :
  PyStr.count c (a +:+ b) = (PyStr.count c a + PyStr.count c b)%nat.
Proof.
  induction a as [|x a IH]; simpl; [reflexivity|]. rewrite IH. lia.
Qed.

Lemma split_no_sep sep s : PyStr.count sep s = O -> PyStr.split sep s = [s].
Proof.
  induction s as [|c s IH]; simpl; [reflexivity|].
  destruct (Ascii.eqb c sep); simpl; [discriminate|].
  intros H. now rewrite (IH H).
Qed.

(** Splitting distributes over a separator in the middle. *)
Lemma split_app_sep sep a b :
  PyStr.split sep (a +:+ String sep b)
  = (PyStr.split sep a ++ PyStr.split sep b)%list.
Proof.
  induction a as [|c a IH]; simpl.
  - now rewrite Ascii.eqb_refl.
  - destruct (Ascii.eqb c sep); simpl; [now rewrite IH|].
    rewrite IH.
    destruct (PyStr.split sep a) as [|p ps] eqn:Ha; [|reflexivity].
    now apply split_nonempty in Ha.
Qed.

Lemma decode_loop_app kvs kvs' : forall env,
  decode_loop (kvs ++ kvs') env
  = match decode_loop kvs env with
    | Ok env' => decode_loop kvs' env'
    | Err e => Err e
    end.
Proof.
  induction kvs as [|kv kvs IH]; intros env; simpl; [reflexivity|].
  destruct (decode_kv env kv) as [env'|e]; simpl; [apply IH|reflexivity].
Qed.

Lemma decode_env_vars_loop csv src m :
  _decode_env_vars csv src = Ok m ->
  decode_loop (PyStr.split comma csv) ∅ = Ok m.
Proof.
  unfold _decode_env_vars.
  destruct (decode_loop _ _) as [m'|[]]; congruence.
Qed.

(** X2. Appending a pair [,k=v] to a string that decodes adds the
    binding [k := v] to the decoded mapping, replacing what an earlier pair
    had bound to [k]. *)
Theorem decode_env_vars_append_pair (csv src k v : string)
  (m : gmap string string) :
  _decode_env_vars csv src = Ok m ->
  PyStr.count comma k = O -> PyStr.count comma v = O ->
  PyStr.count equals k = O -> PyStr.count equals v = O ->
  _decode_env_vars (csv +:+ "," +:+ k +:+ "=" +:+ v) src = Ok (<[k := v]> m).
Proof.
  intros Hm Hck Hcv Hek Hev.
  apply decode_env_vars_loop in Hm.
  unfold _decode_env_vars.
  change (csv +:+ "," +:+ k +:+ "=" +:+ v)
    with (csv +:+ String comma (k +:+ String equals v)).
  rewrite split_app_sep, decode_loop_app, Hm.
  rewrite (split_no_sep comma (k +:+ String equals v)).
  - simpl. unfold decode_kv.
    rewrite split_app_sep, (split_no_sep equals k Hek),
      (split_no_sep equals v Hev). reflexivity.
  - rewrite count_app. simpl. lia.
Qed.

Lemma decode_env_vars_append_pair_witness :
  exists m, _decode_env_vars "A=1,B=2" "Job" = Ok m
            /\ _decode_env_vars "A=1,B=2,A=9" "Job" = Ok (<["A" := "9"]> m)
            /\ <["A" := "9"]> m !! "A" = Some "9".
Proof.
  destruct (decode_env_vars_ok "A=1,B=2" "Job" eq_refl) as [m Hm].
  exists m. split; [exact Hm|]. split.
  - apply (decode_env_vars_append_pair "A=1,B=2" "Job" "A" "9" m Hm);
      reflexivity.
  - apply lookup_insert_eq.
Defined.

(** ** Preparation, cleanup and the run directory *)

Lemma check_inventories_present w dir inventories :
  forallb (fun path => negb (stat_fails w (dir +:+ path))) inventories
  = true ->
  forallb (fun inventory => path_exists w (dir +:+ inventory)) inventories
  = true ->
  check_inventories w dir inventories = Ok tt.
Proof.
  induction inventories as [|p rest IH]; simpl; [reflexivity|].
  destruct (stat_fails w (dir +:+ p)); simpl; [discriminate|].
  destruct (path_exists w (dir +:+ p)); simpl; [exact IH|discriminate].
Qed.

Lemma runner_options_limit w job execution opts :
  _runner_options w job execution = Ok opts ->
  limit opts = match exec_limit execution with
               | Some l => Some l
               | None => job_limit job
               end.
Proof.
  unfold _runner_options.
  destruct (merge_env_vars job execution) as [m|e]; simpl; [|discriminate].
  destruct (check_aw_env_var_true w "run_isolate_dir"); simpl; [discriminate|].
  intros [= <-]. reflexivity.
Qed.

(** [runner_prep] once the options are built: the path checks, then the
    run directory, then "Running". *)
Lemma runner_prep_unfold w job execution opts :
  _runner_options w job (the_execution job execution) = Ok opts ->
  runner_prep w job execution
  = let st := _update_execution_status w
                (init_store (the_execution job execution)) "Starting" in
    match check_playbooks w (project_root w)
            (PyStr.split comma (job_playbook job)) with
    | Err e => (Err e, st)
    | Ok _ =>
        match check_inventories w (project_root w)
                (PyStr.split comma (job_inventory job)) with
        | Err e => (Err e, st)
        | Ok _ =>
            match make_run_directory w (build_path_run w) st with
            | (Err e, st) => (Err e, st)
            | (Ok _, st) =>
                (Ok (with_playbook_inventory opts
                       (PyStr.split comma (job_playbook job))
                       (PyStr.split comma (job_inventory job))),
                 _update_execution_status w st "Running")
            end
        end
    end.
Proof.
  intros Hopts.
  destruct (runner_options_fields _ _ _ _ Hopts) as [Hdir Hpdd].
  unfold runner_prep. fold (the_execution job execution).
  rewrite Hopts. cbn [project_dir private_data_dir with_playbook_inventory].
  rewrite Hdir, Hpdd. fold (project_root w). reflexivity.
Qed.

Lemma make_run_directory_ok w pdd st st' :
  make_run_directory w pdd st = (Ok tt, st') ->
  st' = if is_dir w pdd then st
        else do_fs (do_fs st (Mkdir pdd)) (Chmod pdd mode_750).
Proof.
  unfold make_run_directory.
  destruct (stat_fails w pdd); [discriminate|].
  destruct (is_dir w pdd); [now intros [= <-]|].
  destruct (mkdir_fails w pdd); [discriminate|].
  destruct (chmod_fails w pdd); [discriminate|now intros [= <-]].
Qed.

Lemma make_run_directory_ready w st :
  directory_ready w = true ->
  make_run_directory w (build_path_run w) st
  = (Ok tt, if is_dir w (build_path_run w) then st
            else do_fs (do_fs st (Mkdir (build_path_run w)))
                   (Chmod (build_path_run w) mode_750)).
Proof.
  unfold directory_ready, make_run_directory. intros H.
  apply andb_prop in H as [Hstat H]. apply negb_true_iff in Hstat.
  rewrite Hstat. destruct (is_dir w (build_path_run w)); [reflexivity|].
  cbn [orb] in H. apply andb_prop in H as [Hm Hc].
  apply negb_true_iff in Hm, Hc. now rewrite Hm, Hc.
Qed.

(** What [runner_prep] computes when every path is present and the run
    directory can be provided. *)
Lemma runner_prep_present w job execution opts :
  _runner_options w job (the_execution job execution) = Ok opts ->
  paths_readable w job = true ->
  playbooks_present w job && inventories_present w job = true ->
  directory_ready w = true ->
  runner_prep w job execution
  = (Ok (with_playbook_inventory opts
           (PyStr.split comma (job_playbook job))
           (PyStr.split comma (job_inventory job))),
     _update_execution_status w
       (let st := _update_execution_status w
                    (init_store (the_execution job execution)) "Starting" in
        if is_dir w (build_path_run w) then st
        else do_fs (do_fs st (Mkdir (build_path_run w)))
               (Chmod (build_path_run w) mode_750))
       "Running").
Proof.
  intros Hopts Hread Hpresent Hready.
  apply andb_prop in Hpresent as [Hp Hi].
  apply paths_readable_split in Hread as [Hrp Hri].
  rewrite (runner_prep_unfold w job execution opts Hopts). cbv zeta.
  unfold playbooks_present in Hp. unfold inventories_present in Hi.
  rewrite (check_playbooks_present _ _ _ Hrp Hp).
  rewrite (check_inventories_present _ _ _ Hri Hi).
  now rewrite (make_run_directory_ready w _ Hready).
Qed.

(** X3. With directory isolation off, variables that decode, path tests
    that answer, every playbook and inventory present and a run directory
    that is there already or that [mkdir] and [chmod] succeed on,
    [runner_prep] returns the options: the merged variables, the run
    directory, the playbook and inventory lists of the job and the
    execution's limit (the job's when the execution has none). It saves
    "Starting" then "Running", and makes the run directory with mode 0o750
    exactly when it is not there yet. *)
Theorem runner_prep_success
  (w : World) (job : Job) (execution : option JobExecution) :
  check_aw_env_var_true w "run_isolate_dir" = false ->
  env_ok (job_environment_vars job) = true ->
  env_ok (exec_environment_vars (the_execution job execution)) = true ->
  paths_readable w job = true ->
  playbooks_present w job && inventories_present w job = true ->
  directory_ready w = true ->
  exists opts m,
    fst (runner_prep w job execution) = Ok opts
    /\ merge_env_vars job (the_execution job execution) = Ok m
    /\ envvars opts = m
    /\ private_data_dir opts = build_path_run w
    /\ playbook opts = Some (PyStr.split comma (job_playbook job))
    /\ inventory opts = Some (PyStr.split comma (job_inventory job))
    /\ limit opts = match exec_limit (the_execution job execution) with
                    | Some l => Some l
                    | None => job_limit job
                    end
    /\ exec_status (st_execution (snd (runner_prep w job execution)))
       = Some (get_choice_key_by_value w "Running")
    /\ saved_status (snd (runner_prep w job execution))
       = [get_choice_key_by_value w "Starting";
          get_choice_key_by_value w "Running"]
    /\ fs_ops (snd (runner_prep w job execution))
       = if is_dir w (build_path_run w) then []
         else [Mkdir (build_path_run w); Chmod (build_path_run w) mode_750].
Proof.
  intros Ht Hj He Hread Hpresent Hready.
  destruct (merge_env_vars_ok job (the_execution job execution) Hj He)
    as [m Hm].
  destruct (runner_options_returns w job _ m Ht Hm) as [opts Hopts].
  pose proof (runner_options_envvars _ _ _ _ Hopts) as Henv.
  destruct (runner_options_fields _ _ _ _ Hopts) as [_ Hpdd].
  pose proof (runner_options_limit _ _ _ _ Hopts) as Hlimit.
  rewrite (runner_prep_present w job execution opts Hopts Hread Hpresent
             Hready).
  eexists. exists m. cbn [fst snd].
  split; [reflexivity|]. split; [exact Hm|].
  split; [cbn; congruence|]. split; [exact Hpdd|].
  split; [reflexivity|]. split; [reflexivity|]. split; [exact Hlimit|].
  destruct (is_dir w (build_path_run w)); repeat split.
Qed.

Lemma runner_prep_success_witness :
  exists opts,
    fst (runner_prep (demo_world []) demo_job (Some demo_execution)) = Ok opts
    /\ playbook opts = Some ["site.yml"]
    /\ fs_ops (snd (runner_prep (demo_world []) demo_job (Some demo_execution)))
       = [Mkdir "/tmp/aw/2024-01-01_00-00-0012345";
          Chmod "/tmp/aw/2024-01-01_00-00-0012345" mode_750].
Proof.
  destruct (runner_prep_success (demo_world []) demo_job (Some demo_execution)
              eq_refl eq_refl eq_refl eq_refl eq_refl eq_refl)
    as (opts & m & Hopts & _ & _ & _ & Hp & _ & _ & _ & _ & Hfs).
  exists opts. split; [exact Hopts|]. split; [exact Hp|exact Hfs].
Defined.

Lemma decode_env_vars_err csv src e :
  _decode_env_vars csv src = Err e ->
  e = AnsibleConfigError (env_vars_error_msg src).
Proof.
  destruct (well_formed_csv csv) eqn:Hwf.
  - destruct (decode_env_vars_ok csv src Hwf) as [m ->]. discriminate.
  - rewrite (decode_env_vars_bad csv src Hwf). now intros [= <-].
Qed.

Lemma runner_options_err w job execution e :
  _runner_options w job execution = Err e ->
  prep_error w job e.
Proof.
  unfold _runner_options, merge_env_vars.
  destruct (job_environment_vars job) as [jcsv|].
  - destruct (_decode_env_vars jcsv "Job") as [mj|ej] eqn:Hj; cbn.
    2:{ intros [= <-]. apply decode_env_vars_err in Hj as ->.
        constructor. now left. }
    destruct (exec_environment_vars execution) as [ecsv|].
    + destruct (_decode_env_vars ecsv "Execution") as [me|ee] eqn:He; cbn.
      2:{ intros [= <-]. apply decode_env_vars_err in He as ->.
          constructor. now right. }
      destruct (check_aw_env_var_true w "run_isolate_dir") eqn:Ht; cbn;
        [|discriminate].
      intros [= <-]. now constructor.
    + cbn. destruct (check_aw_env_var_true w "run_isolate_dir") eqn:Ht; cbn;
        [|discriminate].
      intros [= <-]. now constructor.
  - cbn. destruct (exec_environment_vars execution) as [ecsv|].
    + destruct (_decode_env_vars ecsv "Execution") as [me|ee] eqn:He; cbn.
      2:{ intros [= <-]. apply decode_env_vars_err in He as ->.
          constructor. now right. }
      destruct (check_aw_env_var_true w "run_isolate_dir") eqn:Ht; cbn;
        [|discriminate].
      intros [= <-]. now constructor.
    + cbn. destruct (check_aw_env_var_true w "run_isolate_dir") eqn:Ht; cbn;
        [|discriminate].
      intros [= <-]. now constructor.
Qed.

Lemma check_playbooks_err w job dir playbooks e :
  check_playbooks w dir playbooks = Err e -> prep_error w job e.
Proof.
  induction playbooks as [|p rest IH]; simpl; [discriminate|].
  destruct (stat_fails w (dir +:+ p)) eqn:Hs.
  { intros [= <-]. apply (PrepFileSystem w job (dir +:+ p)). now left. }
  destruct (is_file w (dir +:+ p)) eqn:Hp; [exact IH|].
  intros [= <-]. now constructor.
Qed.

Lemma check_inventories_err w job dir inventories e :
  check_inventories w dir inventories = Err e -> prep_error w job e.
Proof.
  induction inventories as [|p rest IH]; simpl; [discriminate|].
  destruct (stat_fails w (dir +:+ p)) eqn:Hs.
  { intros [= <-]. apply (PrepFileSystem w job (dir +:+ p)). now left. }
  destruct (path_exists w (dir +:+ p)) eqn:Hp; [exact IH|].
  intros [= <-]. now constructor.
Qed.

Lemma make_run_directory_err w job st e st' :
  make_run_directory w (build_path_run w) st = (Err e, st') ->
  prep_error w job e
  /\ e = OSError
  /\ (st' = st
      \/ chmod_fails w (build_path_run w) = true
         /\ st' = do_fs st (Mkdir (build_path_run w))).
Proof.
  unfold make_run_directory.
  destruct (stat_fails w (build_path_run w)) eqn:Hs.
  { intros [= <- <-]. split; [|now auto].
    apply (PrepFileSystem w job (build_path_run w)). now left. }
  destruct (is_dir w (build_path_run w)); [discriminate|].
  destruct (mkdir_fails w (build_path_run w)) eqn:Hm.
  { intros [= <- <-]. split; [|now auto].
    apply (PrepFileSystem w job (build_path_run w)). auto. }
  destruct (chmod_fails w (build_path_run w)) eqn:Hc; [|discriminate].
  intros [= <- <-]. split; [|now auto].
  apply (PrepFileSystem w job (build_path_run w)). auto.
Qed.

(** X4. Whatever [runner_prep] raises is the configuration error of a
    malformed variable string (naming "Job" or "Execution"), of a playbook
    that is no file or of an inventory that does not exist, the
    [TypeError] of directory isolation, or the [OSError] of a path test,
    [mkdir] or [chmod] that failed. Whenever it raises, only "Starting" has
    been saved, and the file system is untouched unless it was [chmod]
    that failed: then the directory just made is left behind. *)
Theorem runner_prep_errors
  (w : World) (job : Job) (execution : option JobExecution) (e : exn) :
  fst (runner_prep w job execution) = Err e ->
  prep_error w job e
  /\ left_by_failed_prep w e (snd (runner_prep w job execution)).
Proof.
  destruct (_runner_options w job (the_execution job execution))
    as [opts|e0] eqn:Hopts.
  2:{ pose proof (runner_options_err _ _ _ _ Hopts) as Hprep.
      unfold runner_prep. fold (the_execution job execution). rewrite Hopts.
      cbn [fst snd]. intros [= <-]. split; [exact Hprep|].
      repeat split. now left. }
  rewrite (runner_prep_unfold w job execution opts Hopts). cbv zeta.
  destruct (check_playbooks _ _ _) as [u|e1] eqn:Hp.
  2:{ cbn [fst snd]. intros [= <-].
      split; [exact (check_playbooks_err _ job _ _ _ Hp)|].
      repeat split. now left. }
  destruct (check_inventories _ _ _) as [u'|e2] eqn:Hi.
  2:{ cbn [fst snd]. intros [= <-].
      split; [exact (check_inventories_err _ job _ _ _ Hi)|].
      repeat split. now left. }
  destruct (make_run_directory _ _ _) as [[u''|e3] st'] eqn:Hd;
    cbn [fst snd]; [discriminate|].
  intros [= <-].
  destruct (make_run_directory_err w job _ _ _ Hd)
    as (Hprep & -> & [->|[Hc ->]]).
  - split; [exact Hprep|]. repeat split. now left.
  - split; [exact Hprep|]. repeat split. right. now repeat split.
Qed.

Lemma runner_prep_errors_witness :
  prep_error (with_fs_failures (demo_world []) false true) demo_job OSError
  /\ fs_ops (snd (runner_prep (with_fs_failures (demo_world []) false true)
                    demo_job (Some demo_execution)))
     = [Mkdir "/tmp/aw/2024-01-01_00-00-0012345"].
Proof.
  destruct (runner_prep_errors (with_fs_failures (demo_world []) false true)
              demo_job (Some demo_execution) OSError eq_refl)
    as (Hprep & _ & _ & [Hfs|(_ & _ & Hfs)]).
  - discriminate Hfs.
  - split; [exact Hprep|exact Hfs].
Defined.

Lemma endswith_app_char s c :
  PyStr.endswith (s +:+ String c EmptyString) c = true.
Proof.
  induction s as [|a s IH]; [apply Ascii.eqb_refl|].
  change (PyStr.endswith (String a (s +:+ String c EmptyString)) c = true).
  cbn [PyStr.endswith].
  destruct (s +:+ String c EmptyString) eqn:Hs; [|exact IH].
  destruct s; discriminate.
Qed.

Lemma append_cancel_l base x y : base +:+ x = base +:+ y -> x = y.
Proof.
  induction base as [|a base IH]; [auto|].
  change (String a (base +:+ x) = String a (base +:+ y) -> x = y).
  intros [= H]. auto.
Qed.

Lemma append_assoc a b c : (a +:+ b) +:+ c = a +:+ b +:+ c.
Proof.
  induction a as [|x a IH]; [reflexivity|].
  change (String x ((a +:+ b) +:+ c) = String x (a +:+ b +:+ c)).
  now f_equal.
Qed.

(** X5. The run directory is the configured run path, with one slash
    added only when the path does not end with one, followed by the time
    stamp and the random digits. *)
Theorem build_path_run_shape (w : World) :
  exists base,
    build_path_run w = base +:+ now_strftime w +:+ random_digits w
    /\ PyStr.endswith base slash = true
    /\ (PyStr.endswith (config w "path_run") slash = true
        /\ base = config w "path_run"
        \/ PyStr.endswith (config w "path_run") slash = false
           /\ base = config w "path_run" +:+ "/").
Proof.
  unfold build_path_run. cbv zeta.
  destruct (PyStr.endswith (config w "path_run") slash) eqn:Hend.
  - exists (config w "path_run"). rewrite append_assoc. auto.
  - exists (config w "path_run" +:+ "/"). rewrite append_assoc.
    split; [reflexivity|]. split; [apply endswith_app_char|]. auto.
Qed.

(** X6. Under one configured run path, two preparations get the same
    run directory only when their time stamps followed by their random
    digits coincide. *)
Theorem build_path_run_collision (w1 w2 : World) :
  config w1 "path_run" = config w2 "path_run" ->
  build_path_run w1 = build_path_run w2 ->
  now_strftime w1 +:+ random_digits w1 = now_strftime w2 +:+ random_digits w2.
Proof.
  intros Hcfg. unfold build_path_run. cbv zeta. rewrite Hcfg.
  rewrite !append_assoc. apply append_cancel_l.
Qed.

Lemma build_path_run_collision_witness :
  now_strftime (demo_world []) +:+ random_digits (demo_world [])
  = now_strftime (demo_world ["run_isolate_process"])
    +:+ random_digits (demo_world ["run_isolate_process"]).
Proof.
  apply (build_path_run_collision (demo_world [])
           (demo_world ["run_isolate_process"])); reflexivity.
Defined.

(** X7. After a preparation that returned, [runner_cleanup] removes the
    run directory of that preparation: the file-system operations are the
    creation (skipped when the directory was already there) followed by
    the recursive removal of the same path. *)
Theorem prep_then_cleanup
  (w : World) (job : Job) (execution : option JobExecution) (opts : Opts) :
  fst (runner_prep w job execution) = Ok opts ->
  private_data_dir opts = build_path_run w
  /\ fs_ops (runner_cleanup opts (snd (runner_prep w job execution)))
     = if is_dir w (build_path_run w) then [Rmtree (build_path_run w)]
       else directory_lifecycle (build_path_run w).
Proof.
  intros Hok.
  destruct (_runner_options w job (the_execution job execution))
    as [opts0|e] eqn:Hopts.
  2:{ rewrite (runner_prep_options_err _ _ _ _ Hopts) in Hok. discriminate. }
  destruct (runner_options_fields _ _ _ _ Hopts) as [_ Hpdd].
  revert Hok. rewrite (runner_prep_unfold w job execution opts0 Hopts).
  cbv zeta.
  destruct (check_playbooks _ _ _) as [u|e1]; [|discriminate].
  destruct (check_inventories _ _ _) as [u'|e2]; [|discriminate].
  destruct (make_run_directory _ _ _) as [[[]|e3] st'] eqn:Hd;
    [|discriminate].
  cbn [fst snd]. intros [= <-].
  apply make_run_directory_ok in Hd. subst st'.
  unfold runner_cleanup. cbn [private_data_dir with_playbook_inventory].
  rewrite Hpdd. split; [reflexivity|].
  destruct (is_dir w (build_path_run w)); reflexivity.
Qed.

Lemma prep_then_cleanup_witness :
  exists opts,
    fs_ops (runner_cleanup opts
              (snd (runner_prep (demo_world []) demo_job (Some demo_execution))))
    = directory_lifecycle "/tmp/aw/2024-01-01_00-00-0012345".
Proof.
  eexists.
  refine (proj2 (prep_then_cleanup (demo_world []) demo_job
                   (Some demo_execution) _ _)).
  vm_compute. reflexivity.
Defined.

(** ** Result parsing, repeated *)

(** X8. When a second outcome is parsed for the same execution and both
    parses return, the first result and its per-host records are kept, the
    second result is stored after it with its own records (each in the
    order of its "processed" dict), the execution references the second
    result and its status is overwritten with the second outcome's: the
    status of an execution that was "Failed" becomes "Finished". *)
Theorem parse_run_result_twice
  (w : World) (st st1 st2 : Store) (start1 start2 : Z)
  (result1 result2 : AnsibleRunner) :
  parse_run_result w st start1 result1 = (Ok tt, st1) ->
  parse_run_result w st1 start2 result2 = (Ok tt, st2) ->
  let n := length (results st) in
  results st2
  = (results st
     ++ [{| time_start := start1; failed := errored result1 |};
         {| time_start := start2; failed := errored result2 |}])%list
  /\ (exists records1 records2,
        result_hosts st2 = (result_hosts st ++ records1 ++ records2)%list
        /\ Forall2 (host_record_ok result1 n) (processed_hosts result1)
             records1
        /\ Forall2 (host_record_ok result2 (S n)) (processed_hosts result2)
             records2)
  /\ exec_result (st_execution st2) = Some (S n)
  /\ exec_status (st_execution st2) = Some (outcome_status w result2)
  /\ saved_status st2
     = (saved_status st
        ++ [outcome_status w result1; outcome_status w result2])%list.
Proof.
  intros H1 H2 n.
  destruct (parse_run_result_ok _ _ _ _ _ H1)
    as (Hr1 & (records1 & Hh1 & Hall1) & _ & _ & Hs1 & _).
  destruct (parse_run_result_ok _ _ _ _ _ H2)
    as (Hr2 & (records2 & Hh2 & Hall2) & He2 & Hst2 & Hs2 & _).
  assert (Hlen : length (results st1) = S n).
  { rewrite Hr1, length_app. simpl. subst n. lia. }
  rewrite Hlen in Hall2, He2.
  split; [rewrite Hr2, Hr1; now rewrite <- app_assoc|].
  split.
  { exists records1, records2. split; [|now split].
    rewrite Hh2, Hh1. now rewrite <- app_assoc. }
  split; [exact He2|]. split; [exact Hst2|].
  rewrite Hs2, Hs1. now rewrite <- app_assoc.
Qed.

Lemma parse_run_result_twice_witness :
  let st1 := snd (parse_run_result (demo_world [])
                    (init_store demo_execution) 0 (hostless_outcome true)) in
  let st2 := snd (parse_run_result (demo_world []) st1 60
                    (hostless_outcome false)) in
  saved_status st2 = [3; 4] /\ exec_result (st_execution st2) = Some 1%nat.
Proof.
  intros st1 st2.
  destruct (parse_run_result_twice (demo_world [])
              (init_store demo_execution) st1 st2 0 60
              (hostless_outcome true) (hostless_outcome false)
              eq_refl eq_refl) as (_ & _ & He & _ & Hs).
  split; [exact Hs|exact He].
Defined.

(** ** The manager along every sequence of calls *)

Section Reachable.

Implicit Types (m : ThreadManager.t) (job : Job) (r : ref).

Lemma discard_NoDup r s : NoDup s -> NoDup (PySet.discard r s).
Proof.
  rewrite !NoDup_ListNoDup. apply List.NoDup_filter.
Qed.

Lemma with_thread_ok m r thread thread' :
  ThreadManager.heap m !! r = Some thread ->
  manager_ok m -> manager_ok (ThreadManager.with_thread m r thread').
Proof.
  intros Hr (Hnd & Hwf & Hheap). split; [exact Hnd|]. split; [exact Hwf|].
  intros r' Hin. cbn [ThreadManager.heap ThreadManager.with_thread].
  destruct (decide (r = r')) as [<-|Hne].
  - rewrite lookup_insert_eq. eauto.
  - rewrite lookup_insert_ne by exact Hne. now apply Hheap.
Qed.

Lemma add_thread_ok m job execution once :
  manager_ok m -> manager_ok (ThreadManager.add_thread m job execution once).
Proof.
  intros (Hnd & Hwf & Hheap).
  split; [|split; [now apply add_thread_well_formed|]].
  - rewrite add_thread_threads by exact Hwf.
    apply NoDup_app. split; [exact Hnd|]. split; [|apply NoDup_singleton].
    intros r Hr Hr'. apply list_elem_of_In, Hwf in Hr.
    apply list_elem_of_singleton in Hr'. lia.
  - intros r. rewrite add_thread_threads by exact Hwf.
    cbn [ThreadManager.add_thread ThreadManager.heap].
    rewrite in_app_iff. intros [Hin|[<-|[]]].
    + pose proof (Hwf r Hin).
      rewrite lookup_insert_ne by lia. now apply Hheap.
    + rewrite lookup_insert_eq. eauto.
Qed.

Lemma stop_thread_ok m job :
  manager_ok m -> manager_ok (ThreadManager.stop_thread m job).
Proof.
  intros (Hnd & Hwf & Hheap). unfold ThreadManager.stop_thread.
  destruct (ThreadManager.first_thread _ _ _) as [[r thread]|] eqn:Hf;
    [|split; [exact Hnd|split; [exact Hwf|exact Hheap]]].
  apply first_thread_Some in Hf as (Hin & Hr & _).
  split; [now apply discard_NoDup|]. split.
  - intros r' Hr'. cbn in Hr'. apply List.filter_In in Hr' as [Hr' _].
    now apply Hwf.
  - intros r' Hr'. cbn in Hr'. apply List.filter_In in Hr' as [Hr' _].
    cbn [ThreadManager.heap ThreadManager.with_threads
           ThreadManager.with_thread].
    destruct (decide (r = r')) as [<-|Hne].
    + rewrite lookup_insert_eq. eauto.
    + rewrite lookup_insert_ne by exact Hne. now apply Hheap.
Qed.

Lemma start_each_ok s : forall m,
  manager_ok m ->
  manager_ok (snd (ThreadManager.start_each m s))
  /\ ThreadManager.threads (snd (ThreadManager.start_each m s))
     = ThreadManager.threads m
  /\ ThreadManager.stopping (snd (ThreadManager.start_each m s))
     = ThreadManager.stopping m.
Proof.
  induction s as [|r s IH]; intros m Hok; simpl;
    [split; [exact Hok|split; reflexivity]|].
  destruct (ThreadManager.heap m !! r) as [thread|] eqn:Hr; [|now apply IH].
  destruct (Workload.started thread); [now apply IH|].
  unfold Workload.start. destruct (Workload.spawned thread);
    [split; [exact Hok|split; reflexivity]|].
  destruct (IH (ThreadManager.with_thread m r (Workload.set_spawned thread)))
    as (H1 & H2 & H3); [now apply (with_thread_ok m r thread)|].
  split; [exact H1|]. split; [exact H2|exact H3].
Qed.

Lemma manager_stop_ok m :
  manager_ok m -> manager_ok (snd (ThreadManager.stop m)).
Proof.
  intros Hok. destruct (ThreadManager.stopping m) eqn:Hs.
  - unfold ThreadManager.stop. now rewrite Hs.
  - destruct (manager_stop_first_call m Hs (proj1 Hok))
      as (m' & -> & Hth & _ & Hheap).
    cbn [snd]. split; [rewrite Hth; apply NoDup_nil; exact I|].
    split; intros r Hr; rewrite Hth in Hr; destruct Hr.
Qed.

Lemma step_ok m op : manager_ok m -> manager_ok (step m op).
Proof.
  intros Hok. destruct op as [job e once|job|job|job|o fuel r]; cbn [step].
  - now apply add_thread_ok.
  - unfold ThreadManager.replace_thread.
    set (m2 := ThreadManager.add_thread _ job None false).
    assert (Hok2 : manager_ok m2)
      by (apply add_thread_ok, stop_thread_ok, Hok).
    destruct (start_thread_cases m2 job)
      as [->|(r & thread & thread' & Hr & _ & ->)]; [exact Hok2|].
    now apply (with_thread_ok m2 r thread).
  - now apply stop_thread_ok.
  - destruct (start_thread_cases m job)
      as [->|(r & thread & thread' & Hr & _ & ->)]; [exact Hok|].
    now apply (with_thread_ok m r thread).
  - pose proof (run_thread_cases o fuel r m) as Hrun.
    destruct (ThreadManager.run_thread o fuel r m) as [[out m']|];
      [|exact Hok].
    destruct Hrun as (thread & thread' & Hr & _ & ->).
    now apply (with_thread_ok m r thread).
Qed.

Lemma call_step_ok m c : manager_ok m -> manager_ok (call_step m c).
Proof.
  intros Hok. destruct c as [op| |]; cbn [call_step].
  - now apply step_ok.
  - now apply manager_stop_ok.
  - now apply start_each_ok.
Qed.

Lemma run_calls_ok cs : forall m,
  manager_ok m -> manager_ok (run_calls m cs).
Proof.
  induction cs as [|c cs IH]; intros m Hok; [exact Hok|].
  unfold run_calls. cbn [fold_left]. apply IH, call_step_ok, Hok.
Qed.

Lemma init_ok : manager_ok ThreadManager.init.
Proof.
  split; [apply NoDup_nil; exact I|]. split; intros r [].
Qed.

Lemma list_spec m :
  manager_ok m ->
  Forall2 (job_of m) (ThreadManager.threads m) (ThreadManager.list m).
Proof.
  intros (_ & _ & Hheap). unfold ThreadManager.list.
  induction (ThreadManager.threads m) as [|r s IH]; [constructor|].
  destruct (Hheap r) as [thread Hr]; [now left|].
  cbn [omap list_omap]. rewrite Hr. cbn.
  constructor.
  - exists thread. now split.
  - apply IH. intros r' Hr'. apply Hheap. now right.
Qed.

End Reachable.

Lemma reachable_manager_ok_NoDup (cs : list Call) :
  NoDup (ThreadManager.threads (run_calls ThreadManager.init cs)).
Proof. apply run_calls_ok, init_ok. Qed.

(** X9. Whatever calls are made on a manager that starts empty
    ([add_thread], [replace_thread], [stop_thread], [start_thread],
    [start], [stop], and the workers' own threads running), its set never
    holds a worker twice, every worker of the set was created by the
    manager, and [list()] returns exactly one job per worker of the set,
    the job of that worker, in the order of the set. *)
Theorem reachable_manager_list (cs : list Call) :
  let m := run_calls ThreadManager.init cs in
  NoDup (ThreadManager.threads m)
  /\ (forall r, In r (ThreadManager.threads m) ->
                (r <= ThreadManager.thread_nr m)%nat)
  /\ Forall2 (job_of m) (ThreadManager.threads m) (ThreadManager.list m)
  /\ length (ThreadManager.list m) = length (ThreadManager.threads m).
Proof.
  intros m.
  assert (Hok : manager_ok m) by apply run_calls_ok, init_ok.
  pose proof (list_spec m Hok) as Hlist.
  split; [apply Hok|]. split; [apply Hok|]. split; [exact Hlist|].
  symmetry. eapply Forall2_length. exact Hlist.
Qed.

(** X10. On a manager reached from the empty one, [stop()] never
    raises: the first call returns [True], sets [stopping] and leaves the
    set empty; it leaves every worker object as it was. *)
Theorem reachable_manager_stop (cs : list Call) :
  let m := run_calls ThreadManager.init cs in
  fst (ThreadManager.stop m) = Ok (negb (ThreadManager.stopping m))
  /\ ThreadManager.stopping (snd (ThreadManager.stop m)) = true
  /\ (ThreadManager.stopping m = false ->
      ThreadManager.threads (snd (ThreadManager.stop m)) = [])
  /\ ThreadManager.heap (snd (ThreadManager.stop m)) = ThreadManager.heap m.
Proof.
  intros m.
  assert (Hok : manager_ok m) by apply run_calls_ok, init_ok.
  destruct (ThreadManager.stopping m) eqn:Hs.
  - unfold ThreadManager.stop. rewrite Hs. cbn. now repeat split.
  - destruct (manager_stop_first_call m Hs (proj1 Hok))
      as (m' & -> & Hth & Hst & Hheap).
    cbn. now repeat split.
Qed.

(** ** Stopping and starting through the manager *)

Section Flags.

Implicit Types (m : ThreadManager.t) (job : Job) (r : ref).

Lemma start_each_stopping s : forall m,
  ThreadManager.stopping (snd (ThreadManager.start_each m s))
  = ThreadManager.stopping m.
Proof.
  induction s as [|r s IH]; intros m; simpl; [reflexivity|].
  destruct (ThreadManager.heap m !! r) as [thread|]; [|apply IH].
  destruct (Workload.started thread); [apply IH|].
  unfold Workload.start. destruct (Workload.spawned thread); [reflexivity|].
  now rewrite IH.
Qed.

Lemma stop_thread_stopping m job :
  ThreadManager.stopping (ThreadManager.stop_thread m job)
  = ThreadManager.stopping m.
Proof.
  unfold ThreadManager.stop_thread.
  now destruct (ThreadManager.first_thread _ _ _) as [[r thread]|].
Qed.

Lemma start_thread_stopping m job :
  ThreadManager.stopping (snd (ThreadManager.start_thread m job))
  = ThreadManager.stopping m.
Proof.
  destruct (start_thread_cases m job)
    as [->|(r & thread & thread' & _ & _ & ->)]; reflexivity.
Qed.

Lemma call_step_stopping m c :
  ThreadManager.stopping m = true ->
  ThreadManager.stopping (call_step m c) = true.
Proof.
  intros Hs. destruct c as [[job e once|job|job|job|o fuel r]| |];
    cbn [call_step step].
  - exact Hs.
  - unfold ThreadManager.replace_thread. rewrite start_thread_stopping.
    cbn [ThreadManager.add_thread ThreadManager.stopping].
    now rewrite stop_thread_stopping.
  - now rewrite stop_thread_stopping.
  - now rewrite start_thread_stopping.
  - pose proof (run_thread_cases o fuel r m) as Hrun.
    destruct (ThreadManager.run_thread o fuel r m) as [[out m']|];
      [|exact Hs].
    now destruct Hrun as (thread & thread' & _ & _ & ->).
  - unfold ThreadManager.stop. now rewrite Hs.
  - unfold ThreadManager.start. now rewrite start_each_stopping.
Qed.

Lemma run_calls_stopping cs : forall m,
  ThreadManager.stopping m = true ->
  ThreadManager.stopping (run_calls m cs) = true.
Proof.
  induction cs as [|c cs IH]; intros m Hs; [exact Hs|].
  unfold run_calls. cbn [fold_left]. apply IH, call_step_stopping, Hs.
Qed.

(** A worker that is spawned but not started makes [start()] raise,
    wherever it stands in the iteration. *)
Lemma start_each_raises s : forall m r thread,
  In r s ->
  ThreadManager.heap m !! r = Some thread ->
  Workload.started thread = false ->
  Workload.spawned thread = true ->
  fst (ThreadManager.start_each m s) = Err RuntimeError.
Proof.
  induction s as [|x s IH]; intros m r thread Hin Hr Hst Hsp; [destruct Hin|].
  cbn [ThreadManager.start_each].
  destruct (ThreadManager.heap m !! x) as [tx|] eqn:Hx.
  - destruct (Workload.started tx) eqn:Hstx.
    + destruct Hin as [->|Hin]; [congruence|]. eapply IH; eassumption.
    + unfold Workload.start. destruct (Workload.spawned tx) eqn:Hspx;
        [reflexivity|].
      destruct Hin as [->|Hin]; [congruence|].
      apply (IH _ r thread Hin); [|assumption|assumption].
      cbn [ThreadManager.heap ThreadManager.with_thread].
      rewrite lookup_insert_ne; [exact Hr|]. intros ->. congruence.
  - destruct Hin as [->|Hin]; [congruence|]. eapply IH; eassumption.
Qed.

Lemma start_each_all_started s : forall m,
  forallb (has_started m) s = true ->
  ThreadManager.start_each m s = (Ok tt, m).
Proof.
  induction s as [|x s IH]; intros m Hall; [reflexivity|].
  cbn [forallb] in Hall. apply andb_prop in Hall as [Hx Hall].
  cbn [ThreadManager.start_each]. unfold has_started in Hx.
  destruct (ThreadManager.heap m !! x) as [tx|]; [|discriminate].
  rewrite Hx. now apply IH.
Qed.

End Flags.

(** X11. The [stopping] flag is never cleared: once a manager is
    stopping, whatever calls follow, it stays stopping and [stop()] returns
    [False] and changes nothing, so a worker added after a [stop()] cannot
    be removed by [stop()]. *)
Theorem stopping_is_final (m : ThreadManager.t) (cs : list Call) :
  ThreadManager.stopping m = true ->
  ThreadManager.stopping (run_calls m cs) = true
  /\ ThreadManager.stop (run_calls m cs) = (Ok false, run_calls m cs).
Proof.
  intros Hs. pose proof (run_calls_stopping cs m Hs) as Hs'.
  split; [exact Hs'|]. unfold ThreadManager.stop. now rewrite Hs'.
Qed.

Lemma stopping_is_final_witness :
  ThreadManager.threads
    (snd (ThreadManager.stop
            (run_calls stopped_manager
               [CallOp (AddThread demo_job None false)]))) = [1%nat].
Proof.
  destruct (stopping_is_final stopped_manager
              [CallOp (AddThread demo_job None false)] eq_refl) as [_ H].
  rewrite H. reflexivity.
Defined.

(** X12. [start()] raises [RuntimeError] whenever the set holds a worker
    whose thread has been started before and whose [started] flag is unset
    (a one-shot worker that has finished and is still registered, or a
    worker whose thread has not entered [run] yet): the manager calls
    [Thread.start()] on it a second time. *)
Theorem start_raises_on_spawned_worker (m : ThreadManager.t) (r : ref) :
  spawned_unstarted m r ->
  fst (ThreadManager.start m) = Err RuntimeError.
Proof.
  intros (Hin & thread & Hr & Hst & Hsp).
  eapply start_each_raises; eassumption.
Qed.

Lemma start_raises_on_spawned_worker_witness :
  fst (ThreadManager.start finished_one_shot) = Err RuntimeError.
Proof.
  apply (start_raises_on_spawned_worker finished_one_shot 1%nat).
  split; [now left|].
  eexists. split; [vm_compute; reflexivity|]. split; reflexivity.
Defined.

(** X13. [start()] on a manager all of whose workers have their
    [started] flag set starts nothing and changes nothing. *)
Theorem start_when_all_started (m : ThreadManager.t) :
  all_started m = true -> ThreadManager.start m = (Ok tt, m).
Proof. intros Hall. now apply start_each_all_started. Qed.

Lemma start_when_all_started_witness :
  ThreadManager.start running_manager = (Ok tt, running_manager).
Proof.
  apply (start_when_all_started running_manager). vm_compute. reflexivity.
Defined.

(** X14. [stop_thread(job)] changes nothing when no worker registered for
    [job] has its [started] flag set, be it that no worker is registered
    for the job or that its worker has not entered [run] yet. *)
Theorem stop_thread_without_started_worker
  (m : ThreadManager.t) (job : Job) :
  (forall r, In r (workers_of m job) -> has_started m r = false) ->
  ThreadManager.stop_thread m job = m.
Proof.
  intros Hnone.
  destruct (stop_thread_cases m job)
    as [[H _]|(r & thread & Hin & Hr & Hst & _)]; [exact H|].
  specialize (Hnone r Hin). unfold has_started in Hnone.
  rewrite Hr in Hnone. congruence.
Qed.

Lemma stop_thread_without_started_worker_witness :
  let m := ThreadManager.add_thread ThreadManager.init demo_job None false in
  ThreadManager.stop_thread m demo_job = m.
Proof.
  intros m. apply (stop_thread_without_started_worker m demo_job).
  intros r Hin. vm_compute in Hin. destruct Hin as [<-|[]].
  vm_compute. reflexivity.
Defined.

(** X15. When a worker registered for [job] has started,
    [stop_thread(job)] picks one such worker, raises its stop signal, marks
    it stopped and not started, and removes it from the set; every other
    worker object and every other member of the set is left as it was. *)
Theorem stop_thread_stops_one
  (m : ThreadManager.t) (job : Job) (r0 : ref) :
  In r0 (workers_of m job) ->
  has_started m r0 = true ->
  let m' := ThreadManager.stop_thread m job in
  exists r thread thread',
    In r (workers_of m job)
    /\ ThreadManager.heap m !! r = Some thread
    /\ Workload.started thread = true
    /\ ThreadManager.heap m' !! r = Some thread'
    /\ Workload.state_stop thread' = true
    /\ Workload.stopped thread' = true
    /\ Workload.started thread' = false
    /\ Workload.job thread' = Workload.job thread
    /\ ~ In r (ThreadManager.threads m')
    /\ forall r', r' <> r ->
         ThreadManager.heap m' !! r' = ThreadManager.heap m !! r'
         /\ (In r' (ThreadManager.threads m')
             <-> In r' (ThreadManager.threads m)).
Proof.
  intros Hin0 Hst0 m'. subst m'. unfold ThreadManager.stop_thread.
  destruct (ThreadManager.first_thread _ _ _) as [[r thread]|] eqn:Hf.
  - apply first_thread_Some in Hf as (Hin & Hr & Ht).
    apply andb_prop in Ht as [Hjob Hst].
    exists r, thread, (snd (Workload.stop thread)).
    cbn [ThreadManager.heap ThreadManager.threads ThreadManager.with_threads
           ThreadManager.with_thread].
    split.
    { apply List.filter_In. split; [exact Hin|].
      unfold is_worker_of. now rewrite Hr. }
    split; [exact Hr|]. split; [exact Hst|].
    split; [apply lookup_insert_eq|].
    do 4 (split; [reflexivity|]).
    split.
    { unfold PySet.discard. rewrite List.filter_In, Nat.eqb_refl.
      intros [_ H]. discriminate. }
    intros r' Hne. split; [now apply lookup_insert_ne|].
    unfold PySet.discard. rewrite List.filter_In, negb_true_iff, Nat.eqb_neq.
    intuition congruence.
  - exfalso. unfold workers_of in Hin0.
    apply List.filter_In in Hin0 as [Hin Hjob].
    unfold is_worker_of in Hjob. unfold has_started in Hst0.
    destruct (ThreadManager.heap m !! r0) as [thread|] eqn:Hr; [|discriminate].
    pose proof (first_thread_None _ _ _ Hf r0 thread Hin Hr) as Hfalse.
    cbn beta in Hfalse. rewrite Hjob, Hst0 in Hfalse. discriminate.
Qed.

Lemma stop_thread_stops_one_witness :
  exists thread',
    ThreadManager.heap (ThreadManager.stop_thread running_manager demo_job)
      !! 1%nat = Some thread'
    /\ Workload.state_stop thread' = true.
Proof.
  destruct (stop_thread_stops_one running_manager demo_job 1%nat)
    as (r & thread & thread' & Hin & _ & _ & Hr' & Hss & _).
  - vm_compute. now left.
  - vm_compute. reflexivity.
  - vm_compute in Hin. destruct Hin as [<-|[]].
    exists thread'. split; [exact Hr'|exact Hss].
Defined.

(** ** What a worker's thread does *)

Section WorkerTraces.

Variable o : Oracle.

Lemma waits_first_app l1 l2 :
  waits_first l1 -> waits_first l2 -> waits_first (l1 ++ l2).
Proof.
  intros H1 H2. induction H1; cbn [app]; try constructor; assumption.
Qed.

Lemma run_nested_over fuel depth error rs :
  run_is_over rs = true ->
  Workload.final (Workload.run_nested o fuel depth error rs) = rs.
Proof.
  unfold run_is_over. intros Hover. destruct fuel as [|fuel]; [reflexivity|].
  rewrite run_nested_S.
  destruct (Workload.once (Workload.self rs)
            && Workload.started (Workload.self rs)); [reflexivity|].
  cbn [orb] in Hover. now rewrite Hover.
Qed.

Lemma run_over fuel error rs :
  run_is_over rs = true ->
  Workload.final (Workload.run o fuel error rs) = rs.
Proof. apply run_nested_over. Qed.

(** The [try] block of a one-shot worker: one playbook run, and always an
    exception, after which the worker is over. *)
Lemma once_body fuel rs :
  Workload.once (Workload.self rs) = true ->
  Workload.started (Workload.self rs) = true ->
  exists e rs1,
    Workload.body o fuel rs = Workload.Raised e rs1
    /\ run_is_over rs1 = true
    /\ Workload.trace rs1
       = (Workload.trace rs
          ++ [ARunPlaybook (Workload.job (Workload.self rs))
                (Workload.execution (Workload.self rs))])%list.
Proof.
  intros Honce Hst. unfold Workload.body, Workload.run_playbook.
  rewrite Honce.
  destruct (ansible_playbook o _ _ _) as [e|].
  - eexists. eexists. split; [reflexivity|]. split; [|reflexivity].
    unfold run_is_over. cbn.
    destruct (concurrent_stop o (Workload.tick rs)); cbn;
      rewrite ?Honce, ?Hst; reflexivity.
  - eexists. eexists. split; [reflexivity|]. split; [|reflexivity].
    unfold run_is_over. cbn. apply orb_true_r.
Qed.

Lemma loop_waits_first fuel wait_sec : forall rs,
  exists suffix,
    Workload.trace (Workload.final (Workload.loop o fuel wait_sec rs))
    = (Workload.trace rs ++ suffix)%list
    /\ waits_first suffix.
Proof.
  induction fuel as [|fuel IH]; intros rs.
  { exists []. split; [cbn; now rewrite app_nil_r|constructor]. }
  rewrite loop_S. unfold Workload.state_stop_wait.
  set (rs1 := Workload.act rs (AWait wait_sec)).
  destruct (Workload.state_stop (Workload.self rs1)).
  { exists [AWait wait_sec]. split; [reflexivity|repeat constructor]. }
  destruct (Workload.state_stop (Workload.self (Workload.blocked o rs1))).
  { exists [AWait wait_sec]. split; [reflexivity|repeat constructor]. }
  unfold Workload.run_playbook.
  set (rs2 := Workload.blocked o rs1).
  set (a := ARunPlaybook (Workload.job (Workload.self rs2))
              (Workload.execution (Workload.self rs2))).
  destruct (ansible_playbook o _ _ _) as [e|].
  - exists [AWait wait_sec; a]. split.
    + cbn. now rewrite <- app_assoc.
    + subst a. apply WaitsRun. constructor.
  - destruct (IH (Workload.blocked o (Workload.act rs2 a)))
      as (suffix & Hs & Hw).
    exists (AWait wait_sec :: a :: suffix). split.
    + rewrite Hs. cbn. now rewrite <- !app_assoc.
    + subst a. now apply WaitsRun.
Qed.

Lemma recurring_body_waits_first fuel rs :
  Workload.once (Workload.self rs) = false ->
  exists suffix,
    Workload.trace (Workload.final (Workload.body o fuel rs))
    = (Workload.trace rs ++ suffix)%list
    /\ waits_first suffix.
Proof.
  intros Honce. unfold Workload.body. rewrite Honce.
  destruct (get_next_cron_execution_sec o _) as [wait_sec|e].
  2:{ exists []. split; [cbn; now rewrite app_nil_r|constructor]. }
  destruct (get_next_cron_execution_str o _ _) as [s|e].
  2:{ exists []. split; [cbn; now rewrite app_nil_r|constructor]. }
  destruct (loop_waits_first fuel wait_sec
              (Workload.with_self rs
                 (Workload.set_next_execution_time (Workload.self rs) s)))
    as (suffix & Hs & Hw).
  exists suffix. split; [exact Hs|exact Hw].
Qed.

End WorkerTraces.

(** X16. A one-shot worker runs the playbook at most once per call of
    [run], and never again: the call adds to the trace nothing, or the
    backoff of a retry followed by one playbook run; and on a worker on
    which [run] has returned, every later call of [run] does nothing. *)
Theorem one_shot_runs_once
  (o : Oracle) (fuel : nat) (error : bool) (rs : Workload.RunState) :
  Workload.once (Workload.self rs) = true ->
  let out := Workload.run o fuel error rs in
  (Workload.trace (Workload.final out) = Workload.trace rs
   \/ Workload.trace (Workload.final out)
      = (Workload.trace rs
         ++ (if error then [ASleep Workload.FAIL_SLEEP] else [])
         ++ [ARunPlaybook (Workload.job (Workload.self rs))
               (Workload.execution (Workload.self rs))])%list)
  /\ forall rs', out = Workload.Returned rs' ->
       forall o' fuel' error',
         Workload.final (Workload.run o' fuel' error' rs') = rs'.
Proof.
  intros Honce out. subst out.
  destruct fuel as [|fuel]; [split; [now left|discriminate]|].
  rewrite run_S, Honce. cbn [andb].
  destruct (Workload.started (Workload.self rs)) eqn:Hst.
  { split; [now left|]. intros rs' [= <-] o' fuel' error'.
    apply run_over. unfold run_is_over. now rewrite Honce, Hst. }
  destruct (Workload.stopped (Workload.self rs)) eqn:Hsp.
  { split; [now left|]. intros rs' [= <-] o' fuel' error'.
    apply run_over. unfold run_is_over. rewrite Hsp. apply orb_true_r. }
  destruct (once_body o fuel (Workload.enter error rs))
    as (e & rs1 & Hbody & Hover & Htrace);
    [destruct error; exact Honce | destruct error; reflexivity|].
  rewrite Hbody.
  assert (Htrace' : Workload.trace rs1
                    = (Workload.trace rs
                       ++ (if error then [ASleep Workload.FAIL_SLEEP] else [])
                       ++ [ARunPlaybook (Workload.job (Workload.self rs))
                             (Workload.execution (Workload.self rs))])%list).
  { rewrite Htrace. destruct error; cbn.
    - now rewrite <- app_assoc.
    - reflexivity. }
  destruct (recursion_limit o <=? 0)%nat.
  { split; [right; exact Htrace'|discriminate]. }
  pose proof (run_nested_over o fuel 1 true rs1 Hover) as Hfinal.
  split.
  - right. rewrite Hfinal. exact Htrace'.
  - intros rs' Hret o' fuel' error'.
    rewrite Hret in Hfinal. cbn [Workload.final] in Hfinal. subst rs'.
    now apply run_over.
Qed.

Lemma one_shot_runs_once_witness :
  Workload.trace
    (Workload.final
       (Workload.run calm_oracle 5 false
          (Workload.final (Workload.run calm_oracle 2 false once_worker))))
  = [ARunPlaybook demo_job None].
Proof.
  destruct (one_shot_runs_once calm_oracle 2 false once_worker eq_refl)
    as [_ Hagain].
  rewrite (Hagain (Workload.final (Workload.run calm_oracle 2 false
                                     once_worker))).
  - vm_compute. reflexivity.
  - vm_compute. reflexivity.
Defined.

(** X17. A recurring worker never runs the playbook without waiting for
    the schedule first: in what a call of [run] adds to the trace, every
    playbook run comes right after a wait, also after a failure and its
    backoff. *)
Theorem recurring_worker_waits_before_each_run
  (o : Oracle) (fuel : nat) (error : bool) (rs : Workload.RunState) :
  Workload.once (Workload.self rs) = false ->
  exists suffix,
    Workload.trace (Workload.final (Workload.run o fuel error rs))
    = (Workload.trace rs ++ suffix)%list
    /\ waits_first suffix.
Proof.
  assert (Hnil : forall rs0 : Workload.RunState,
            exists suffix, Workload.trace rs0
                           = (Workload.trace rs0 ++ suffix)%list
                           /\ waits_first suffix).
  { intros rs0. exists []. split; [now rewrite app_nil_r|constructor]. }
  unfold Workload.run. generalize 0%nat as depth. revert error rs.
  induction fuel as [|fuel IH]; intros error rs depth Honce; [apply Hnil|].
  rewrite run_nested_S, Honce. cbn [andb].
  destruct (Workload.stopped (Workload.self rs)); [apply Hnil|].
  assert (Henter : exists pre,
            Workload.trace (Workload.enter error rs)
            = (Workload.trace rs ++ pre)%list /\ waits_first pre).
  { destruct error.
    - exists [ASleep Workload.FAIL_SLEEP]. split; [reflexivity|].
      repeat constructor.
    - exists []. split; [cbn; now rewrite app_nil_r|constructor]. }
  destruct Henter as (pre & Hpre & Hwpre).
  assert (Honce' : Workload.once (Workload.self (Workload.enter error rs))
                   = false) by (destruct error; exact Honce).
  destruct (recurring_body_waits_first o fuel _ Honce') as (mid & Hmid & Hwmid).
  pose proof (body_frame o fuel (Workload.enter error rs)) as (_ & _ & Hfo).
  destruct (Workload.body o fuel (Workload.enter error rs))
    as [rs2|e rs2|rs2]; cbn [Workload.final] in *.
  - exists (pre ++ mid)%list. split; [|now apply waits_first_app].
    rewrite Hmid, Hpre. now rewrite app_assoc.
  - destruct (recursion_limit o <=? depth)%nat; cbn [Workload.final].
    { exists (pre ++ mid)%list. split; [|now apply waits_first_app].
      rewrite Hmid, Hpre. now rewrite app_assoc. }
    destruct (IH true rs2 (S depth)) as (post & Hpost & Hwpost);
      [congruence|].
    exists (pre ++ mid ++ post)%list. split.
    + rewrite Hpost, Hmid, Hpre. now rewrite !app_assoc.
    + now repeat apply waits_first_app.
  - exists (pre ++ mid)%list. split; [|now apply waits_first_app].
    rewrite Hmid, Hpre. now rewrite app_assoc.
Qed.

Lemma recurring_worker_waits_before_each_run_witness :
  waits_first
    (Workload.trace
       (Workload.final
          (Workload.run (failing_oracle 1 OSError) 4 false recurring_worker))).
Proof.
  destruct (recurring_worker_waits_before_each_run
              (failing_oracle 1 OSError) 4 false recurring_worker eq_refl)
    as (suffix & Hs & Hw).
  rewrite Hs. exact Hw.
Defined.

(** X18. Once its stop signal is raised, a recurring worker runs the
    playbook no more: whatever a call of [run] adds to the trace then is
    waits and backoff sleeps only, also when the schedule cannot be
    evaluated and the call keeps retrying. *)
Theorem signalled_worker_runs_no_playbook
  (o : Oracle) (fuel : nat) (error : bool) (rs : Workload.RunState) :
  Workload.once (Workload.self rs) = false ->
  Workload.state_stop (Workload.self rs) = true ->
  exists suffix,
    Workload.trace (Workload.final (Workload.run o fuel error rs))
    = (Workload.trace rs ++ suffix)%list
    /\ Forall (fun a => is_playbook_run a = false) suffix.
Proof.
  unfold Workload.run. generalize 0%nat as depth. revert error rs.
  induction fuel as [|fuel IH]; intros error rs depth Honce Hset.
  { exists []. split; [cbn; now rewrite app_nil_r|constructor]. }
  rewrite run_nested_S, Honce. cbn [andb].
  destruct (Workload.stopped (Workload.self rs)).
  { exists []. split; [cbn; now rewrite app_nil_r|constructor]. }
  set (rs1 := Workload.enter error rs).
  assert (H1 : Workload.once (Workload.self rs1) = false
               /\ Workload.state_stop (Workload.self rs1) = true
               /\ exists pre, Workload.trace rs1
                              = (Workload.trace rs ++ pre)%list
                              /\ Forall (fun a => is_playbook_run a = false)
                                   pre).
  { subst rs1. destruct error; cbn; (split; [exact Honce|]);
      (split; [exact Hset|]).
    - exists [ASleep Workload.FAIL_SLEEP]. split; [reflexivity|].
      now repeat constructor.
    - exists []. split; [now rewrite app_nil_r|constructor]. }
  destruct H1 as (Honce1 & Hset1 & pre & Hpre & Hfpre).
  assert (Hraise :
            exists suffix,
              Workload.trace
                (Workload.final
                   (if (recursion_limit o <=? depth)%nat
                    then Workload.Raised RecursionError rs1
                    else Workload.run_nested o fuel (S depth) true rs1))
              = (Workload.trace rs ++ suffix)%list
              /\ Forall (fun a => is_playbook_run a = false) suffix).
  { destruct (recursion_limit o <=? depth)%nat; cbn [Workload.final].
    { exists pre. split; [exact Hpre|exact Hfpre]. }
    destruct (IH true rs1 (S depth) Honce1 Hset1) as (post & Hpost & Hfpost).
    exists (pre ++ post)%list. split.
    - rewrite Hpost, Hpre. now rewrite app_assoc.
    - now apply Forall_app. }
  unfold Workload.body. rewrite Honce1.
  destruct (get_next_cron_execution_sec o _) as [wait_sec|e];
    [|cbv beta iota; exact Hraise].
  destruct (get_next_cron_execution_str o _ _) as [s|e];
    [|cbv beta iota; exact Hraise].
  destruct fuel as [|fuel'].
  { cbn. exists pre. split; [exact Hpre|exact Hfpre]. }
  set (rs2 := Workload.with_self rs1
                (Workload.set_next_execution_time (Workload.self rs1) s)).
  assert (Hset2 : Workload.state_stop
                    (Workload.self (Workload.act rs2 (AWait wait_sec)))
                  = true) by exact Hset1.
  rewrite loop_S. unfold Workload.state_stop_wait. cbv zeta.
  rewrite Hset2. cbn [Workload.final].
  exists (pre ++ [AWait wait_sec])%list. split.
  - change (Workload.trace (Workload.act rs2 (AWait wait_sec)))
      with (Workload.trace rs1 ++ [AWait wait_sec])%list.
    rewrite Hpre. now rewrite app_assoc.
  - apply Forall_app. split; [exact Hfpre|]. now repeat constructor.
Qed.

Lemma signalled_worker_runs_no_playbook_witness :
  Forall (fun a => is_playbook_run a = false)
    (Workload.trace
       (Workload.final (Workload.run calm_oracle 5 false signalled_worker))).
Proof.
  destruct (signalled_worker_runs_no_playbook calm_oracle 5 false
              signalled_worker eq_refl eq_refl) as (suffix & Hs & Hf).
  rewrite Hs. exact Hf.
Defined.

(** ** Thread numbers and [start()] *)

Section Numbers.

Implicit Types (m : ThreadManager.t) (job : Job) (r : ref).

Lemma start_each_thread_nr s : forall m,
  ThreadManager.thread_nr (snd (ThreadManager.start_each m s))
  = ThreadManager.thread_nr m.
Proof.
  induction s as [|r s IH]; intros m; simpl; [reflexivity|].
  destruct (ThreadManager.heap m !! r) as [thread|]; [|apply IH].
  destruct (Workload.started thread); [apply IH|].
  unfold Workload.start. destruct (Workload.spawned thread); [reflexivity|].
  now rewrite IH.
Qed.

Lemma start_thread_thread_nr m job :
  ThreadManager.thread_nr (snd (ThreadManager.start_thread m job))
  = ThreadManager.thread_nr m.
Proof.
  destruct (start_thread_cases m job)
    as [->|(r & thread & thread' & _ & _ & ->)]; reflexivity.
Qed.

Lemma call_step_thread_nr m c :
  ThreadManager.thread_nr (call_step m c)
  = ((if creates_worker c then 1 else 0) + ThreadManager.thread_nr m)%nat.
Proof.
  destruct c as [[job e once|job|job|job|o fuel r]| |];
    cbn [call_step step creates_worker].
  - reflexivity.
  - unfold ThreadManager.replace_thread. rewrite start_thread_thread_nr.
    cbn [ThreadManager.add_thread ThreadManager.thread_nr].
    now rewrite stop_thread_thread_nr.
  - apply stop_thread_thread_nr.
  - apply start_thread_thread_nr.
  - pose proof (run_thread_cases o fuel r m) as Hrun.
    destruct (ThreadManager.run_thread o fuel r m) as [[out m']|];
      [|reflexivity].
    now destruct Hrun as (thread & thread' & _ & _ & ->).
  - unfold ThreadManager.stop.
    destruct (ThreadManager.stopping m); [reflexivity|].
    cbn [ThreadManager.threads].
    now destruct (ThreadManager.remove_all _ _).
  - apply start_each_thread_nr.
Qed.

Lemma run_calls_thread_nr cs : forall m,
  ThreadManager.thread_nr (run_calls m cs)
  = (created cs + ThreadManager.thread_nr m)%nat.
Proof.
  induction cs as [|c cs IH]; intros m; [reflexivity|].
  unfold run_calls. cbn [fold_left]. fold (run_calls (call_step m c) cs).
  rewrite IH, call_step_thread_nr. unfold created. cbn [List.filter].
  destruct (creates_worker c); cbn [length]; lia.
Qed.

(** [start()] over a part of the set none of whose workers is spawned
    without being started. *)
Lemma start_each_fresh s : forall m,
  NoDup s ->
  (forall r thread, In r s -> ThreadManager.heap m !! r = Some thread ->
                    Workload.started thread = false ->
                    Workload.spawned thread = false) ->
  fst (ThreadManager.start_each m s) = Ok tt
  /\ ThreadManager.threads (snd (ThreadManager.start_each m s))
     = ThreadManager.threads m
  /\ forall r,
       ThreadManager.heap (snd (ThreadManager.start_each m s)) !! r
       = if bool_decide (r ∈ s)
         then started_by_manager <$> ThreadManager.heap m !! r
         else ThreadManager.heap m !! r.
Proof.
  induction s as [|x s IH]; intros m Hnd Hfresh.
  { split; [reflexivity|]. split; [reflexivity|]. intros r.
    now rewrite bool_decide_eq_false_2 by apply not_elem_of_nil. }
  apply NoDup_cons in Hnd as [Hx Hnd].
  cbn [ThreadManager.start_each].
  destruct (ThreadManager.heap m !! x) as [tx|] eqn:Hhx.
  - destruct (Workload.started tx) eqn:Hstx.
    + destruct (IH m Hnd) as (H1 & H2 & H3).
      { intros r t Hin. apply Hfresh. now right. }
      split; [exact H1|]. split; [exact H2|]. intros r. rewrite H3.
      destruct (decide (r = x)) as [->|Hne].
      * rewrite (bool_decide_eq_false_2 _ Hx).
        rewrite bool_decide_eq_true_2 by left.
        rewrite Hhx. cbn. unfold started_by_manager. now rewrite Hstx.
      * destruct (bool_decide (r ∈ s)) eqn:Hrs.
        -- apply bool_decide_eq_true_1 in Hrs.
           now rewrite bool_decide_eq_true_2 by (right; exact Hrs).
        -- apply bool_decide_eq_false_1 in Hrs.
           rewrite bool_decide_eq_false_2; [reflexivity|].
           rewrite elem_of_cons. tauto.
    + unfold Workload.start.
      rewrite (Hfresh x tx (or_introl eq_refl) Hhx Hstx).
      set (m1 := ThreadManager.with_thread m x (Workload.set_spawned tx)).
      destruct (IH m1 Hnd) as (H1 & H2 & H3).
      { intros r t Hin Hr. apply (Hfresh r t); [now right|].
        subst m1. cbn [ThreadManager.heap ThreadManager.with_thread] in Hr.
        rewrite lookup_insert_ne in Hr; [exact Hr|].
        intros ->. apply Hx, list_elem_of_In, Hin. }
      split; [exact H1|]. split; [exact H2|]. intros r. rewrite H3.
      subst m1. cbn [ThreadManager.heap ThreadManager.with_thread].
      destruct (decide (r = x)) as [->|Hne].
      * rewrite (bool_decide_eq_false_2 _ Hx).
        rewrite bool_decide_eq_true_2 by left.
        rewrite lookup_insert_eq, Hhx. cbn.
        unfold started_by_manager. now rewrite Hstx.
      * rewrite lookup_insert_ne by congruence.
        destruct (bool_decide (r ∈ s)) eqn:Hrs.
        -- apply bool_decide_eq_true_1 in Hrs.
           now rewrite bool_decide_eq_true_2 by (right; exact Hrs).
        -- apply bool_decide_eq_false_1 in Hrs.
           rewrite bool_decide_eq_false_2; [reflexivity|].
           rewrite elem_of_cons. tauto.
  - destruct (IH m Hnd) as (H1 & H2 & H3).
    { intros r t Hin. apply Hfresh. now right. }
    split; [exact H1|]. split; [exact H2|]. intros r. rewrite H3.
    destruct (decide (r = x)) as [->|Hne].
    * rewrite (bool_decide_eq_false_2 _ Hx).
      rewrite bool_decide_eq_true_2 by left. now rewrite Hhx.
    * destruct (bool_decide (r ∈ s)) eqn:Hrs.
      -- apply bool_decide_eq_true_1 in Hrs.
         now rewrite bool_decide_eq_true_2 by (right; exact Hrs).
      -- apply bool_decide_eq_false_1 in Hrs.
         rewrite bool_decide_eq_false_2; [reflexivity|].
         rewrite elem_of_cons. tauto.
Qed.

End Numbers.

(** X19. The thread number of a manager that starts empty is the number
    of [add_thread] and [replace_thread] calls made on it, whatever other
    calls come between: numbers are handed out once and never reused, also
    after workers are stopped or the manager is stopped. *)
Theorem thread_nr_counts_created_workers (cs : list Call) :
  ThreadManager.thread_nr (run_calls ThreadManager.init cs) = created cs.
Proof.
  rewrite run_calls_thread_nr. cbn [ThreadManager.init ThreadManager.thread_nr].
  lia.
Qed.

(** X20. When the set holds no worker twice and none that is spawned
    without being started, [start()] returns without raising, leaves the
    set as it is, marks every worker of the set that has not started as
    spawned, and leaves every other worker object as it was. *)
Theorem start_spawns_unstarted_workers (m : ThreadManager.t) :
  NoDup (ThreadManager.threads m) ->
  startable m ->
  let m' := snd (ThreadManager.start m) in
  fst (ThreadManager.start m) = Ok tt
  /\ ThreadManager.threads m' = ThreadManager.threads m
  /\ forall r,
       ThreadManager.heap m' !! r
       = if bool_decide (r ∈ ThreadManager.threads m)
         then started_by_manager <$> ThreadManager.heap m !! r
         else ThreadManager.heap m !! r.
Proof.
  intros Hnd Hfresh. apply start_each_fresh; assumption.
Qed.

Lemma start_spawns_unstarted_workers_witness :
  fst (ThreadManager.start two_fresh_workers) = Ok tt
  /\ Workload.spawned
       <$> ThreadManager.heap (snd (ThreadManager.start two_fresh_workers))
           !! 2%nat = Some true.
Proof.
  destruct (start_spawns_unstarted_workers two_fresh_workers)
    as (Hok & _ & Hheap).
  - apply (reachable_manager_ok_NoDup
             [CallOp (AddThread demo_job None false);
              CallOp (AddThread (with_playbook demo_job "other.yml")
                        None true)]).
  - intros r thread Hin Hr _. vm_compute in Hin.
    destruct Hin as [<-|[<-|[]]]; vm_compute in Hr; now injection Hr as <-.
  - split; [exact Hok|]. rewrite Hheap. vm_compute. reflexivity.
Defined.

(** ** Scheduled runs *)

Lemma merge_env_vars_scheduled job :
  merge_env_vars job (scheduled_execution job)
  = match job_environment_vars job with
    | Some csv => _decode_env_vars csv "Job"
    | None => Ok ∅
    end.
Proof.
  unfold merge_env_vars. cbn [scheduled_execution exec_environment_vars].
  destruct (job_environment_vars job) as [csv|]; [|reflexivity].
  destruct (_decode_env_vars csv "Job") as [d|e]; [|reflexivity].
  cbn. now rewrite (right_id_L ∅ (∪)).
Qed.

(** X21. A preparation without an execution (a scheduled run)
    synthesises one with comment "Scheduled", no user and no overrides:
    when it returns, the options carry the job's limit and the job's
    variables alone, and the execution it has saved as "Running" is that
    synthesised one. *)
Theorem scheduled_run_uses_job_settings
  (w : World) (job : Job) (opts : Opts) :
  fst (runner_prep w job None) = Ok opts ->
  limit opts = job_limit job
  /\ Ok (envvars opts)
     = match job_environment_vars job with
       | Some csv => _decode_env_vars csv "Job"
       | None => Ok ∅
       end
  /\ st_execution (snd (runner_prep w job None))
     = set_status (scheduled_execution job)
         (get_choice_key_by_value w "Running").
Proof.
  intros Hok.
  destruct (_runner_options w job (the_execution job None))
    as [opts0|e] eqn:Hopts.
  2:{ rewrite (runner_prep_options_err _ _ _ _ Hopts) in Hok. discriminate. }
  pose proof (runner_options_envvars _ _ _ _ Hopts) as Henv.
  pose proof (runner_options_limit _ _ _ _ Hopts) as Hlimit.
  revert Hok. rewrite (runner_prep_unfold w job None opts0 Hopts).
  cbv zeta.
  destruct (check_playbooks _ _ _) as [u|e1]; [|discriminate].
  destruct (check_inventories _ _ _) as [u'|e2]; [|discriminate].
  destruct (make_run_directory _ _ _) as [[[]|e3] st'] eqn:Hd;
    [|discriminate].
  cbn [fst snd]. intros [= <-].
  apply make_run_directory_ok in Hd. subst st'.
  split; [exact Hlimit|]. split.
  - cbn [envvars with_playbook_inventory].
    rewrite <- merge_env_vars_scheduled. symmetry. exact Henv.
  - now destruct (is_dir w (build_path_run w)).
Qed.

Lemma scheduled_run_uses_job_settings_witness :
  exists opts,
    fst (runner_prep (demo_world []) demo_job None) = Ok opts
    /\ limit opts = None
    /\ envvars opts !! "B" = Some "2".
Proof.
  destruct (fst (runner_prep (demo_world []) demo_job None))
    as [opts|e] eqn:Hprep; [|vm_compute in Hprep; discriminate Hprep].
  destruct (scheduled_run_uses_job_settings (demo_world []) demo_job opts
              Hprep) as (Hl & Henv & _).
  exists opts. split; [reflexivity|]. split; [exact Hl|].
  cbn [demo_job job_environment_vars] in Henv.
  destruct (decode_env_vars_ok "A=1,B=2" "Job" eq_refl) as [m Hm].
  rewrite Hm in Henv. injection Henv as Henv. rewrite Henv.
  vm_compute in Hm. injection Hm as <-. reflexivity.
Defined.

(** With a schedule that cannot be evaluated, a signalled recurring
    worker only backs off. *)
Example signalled_worker_broken_cron :
  Workload.trace
    (Workload.final (Workload.run broken_cron_oracle 3 false signalled_worker))
  = [ASleep Workload.FAIL_SLEEP; ASleep Workload.FAIL_SLEEP].
Proof. reflexivity. Qed.
